(** * A model of [src/lib/woo.ts], the WooCommerce REST client of mini-woo

    The module is a thin adapter: it shapes request payloads, appends the
    two credentials to the query string and hands the request to the
    platform's [fetch].  The embedding below follows the source function
    by function.  Platform facilities the source calls ([String.replace],
    [URLSearchParams], [JSON.stringify], property access, truthiness) are
    modelled as executable functions; the network is a parameter of the
    world in which an operation runs. *)

From Stdlib Require Import String Ascii List ZArith Bool Arith Lia.
From Stdlib Require Import DecimalString.
From Stdlib Require DecimalPos DecimalZ.
Import ListNotations.

Local Set Warnings "-register-all".
Local Open Scope list_scope.
Local Open Scope string_scope.

(** ** JavaScript values

    Strings are byte strings, standing for the UTF-8 form of well-formed
    JavaScript text.  Numbers are the integral numbers of the safe range
    (identifiers, quantities, amounts), on which [Number::toString] is the
    decimal numeral.  Objects keep their properties in insertion order,
    which is the order [JSON.stringify] walks them in. *)

Inductive JSValue : Type :=
| JUndefined
| JNull
| JBool (b : bool)
| JNum (n : Z)
| JStr (s : string)
| JArr (items : list JSValue)
| JObj (props : list (string * JSValue)).

(** What a promise settles to, or what a synchronous computation
    completes with. *)
Inductive JSError : Type :=
| SyntaxError        (* thrown by the JSON parser behind [Response.json] *)
| TypeError          (* property read on null, call of a non-function *)
| NetworkError (reason : string).   (* [fetch] rejected *)

Inductive Completion (A : Type) : Type :=
| Resolved (a : A)
| Rejected (e : JSError).
Arguments Resolved {A} a.
Arguments Rejected {A} e.

Module Js.

(** [ToBoolean]. *)
Definition truthy (v : JSValue) : bool :=
  match v with
  | JUndefined | JNull => false
  | JBool b => b
  | JNum n => negb (n =? 0)%Z
  | JStr s => negb (s =? EmptyString)
  | JArr _ | JObj _ => true
  end.

Fixpoint lookup (k : string) (props : list (string * JSValue)) : option JSValue :=
  match props with
  | [] => None
  | (k', v) :: rest => if k' =? k then Some v else lookup k rest
  end.

(** [v.k] for a property name [k] that no built-in prototype defines
    (every name the source reads is of that kind): an own property of an
    object, [undefined] on any other value that can be boxed, and a
    [TypeError] on [null] and [undefined]. *)
Definition getprop (v : JSValue) (k : string) : Completion JSValue :=
  match v with
  | JUndefined | JNull => Rejected TypeError
  | JObj props =>
      match lookup k props with
      | Some x => Resolved x
      | None => Resolved JUndefined
      end
  | _ => Resolved JUndefined
  end.

(** [Number::toString] on an integral number of the safe range. *)
Definition Number_toString (n : Z) : string :=
  NilZero.string_of_int (Z.to_int n).

(** [ToString] of a value that is a string or is missing. *)
Definition opt_toString (v : option string) : string :=
  match v with
  | Some s => s
  | None => "undefined"
  end.

Definition js_of_opt (v : option string) : JSValue :=
  match v with
  | Some s => JStr s
  | None => JUndefined
  end.

(** [s.replace(pat, rep)] for a string pattern: the first occurrence
    only.  ([rep] holds no [$], so it is taken literally.) *)
Fixpoint replace (pat rep s : string) : string :=
  if prefix pat s
  then rep ++ substring (String.length pat) (String.length s - String.length pat) s
  else match s with
       | EmptyString => EmptyString
       | String c s' => String c (replace pat rep s')
       end.

Fixpoint join (sep : string) (l : list string) : string :=
  match l with
  | [] => EmptyString
  | [x] => x
  | x :: rest => x ++ sep ++ join sep rest
  end.

End Js.

(** ** [JSON.stringify] *)
Module JSON.

Definition dquote : ascii := ascii_of_N 34.
Definition backslash : ascii := ascii_of_N 92.

Definition hex_lower (n : N) : ascii :=
  if (n <? 10)%N then ascii_of_N (48 + n) else ascii_of_N (87 + n).

(** One code unit of [QuoteJSONString]. *)
Definition quote_char (c : ascii) : string :=
  let n := N_of_ascii c in
  if (n =? 34)%N then String backslash (String dquote EmptyString)
  else if (n =? 92)%N then String backslash (String backslash EmptyString)
  else if (n =? 8)%N then "\b"
  else if (n =? 12)%N then "\f"
  else if (n =? 10)%N then "\n"
  else if (n =? 13)%N then "\r"
  else if (n =? 9)%N then "\t"
  else if (n <? 32)%N then
    "\u00" ++ String (hex_lower (n / 16)) (String (hex_lower (n mod 16)) EmptyString)
  else String c EmptyString.

Fixpoint quote_body (s : string) : string :=
  match s with
  | EmptyString => EmptyString
  | String c s' => quote_char c ++ quote_body s'
  end.

Definition quote (s : string) : string :=
  String dquote (quote_body s ++ String dquote EmptyString).

(** [None] is the [undefined] that [JSON.stringify(undefined)] returns.
    A property whose value is [undefined] is left out of an object; an
    [undefined] array element is written [null]. *)
Fixpoint stringify (v : JSValue) : option string :=
  match v with
  | JUndefined => None
  | JNull => Some "null"
  | JBool true => Some "true"
  | JBool false => Some "false"
  | JNum n => Some (Js.Number_toString n)
  | JStr s => Some (quote s)
  | JArr items =>
      Some ("[" ++ Js.join ","
              (map (fun x => match stringify x with
                             | Some t => t
                             | None => "null"
                             end) items) ++ "]")
  | JObj props =>
      Some ("{" ++ Js.join ","
              (flat_map (fun p => match stringify (snd p) with
                                  | Some t => [quote (fst p) ++ ":" ++ t]
                                  | None => []
                                  end) props) ++ "}")
  end.

End JSON.

(** ** [URLSearchParams]

    A list of name-value pairs: the order and the duplicates are
    observable in what [toString] serialises. *)
Module URLSearchParams.

Definition t : Type := list (string * string).

(** [new URLSearchParams()] *)
Definition empty : t := [].

(** [get(name)]: the value of the first pair with that name. *)
Fixpoint get (name : string) (q : t) : option string :=
  match q with
  | [] => None
  | (n, v) :: rest => if n =? name then Some v else get name rest
  end.

Definition remove (name : string) (q : t) : t :=
  filter (fun p => negb (fst p =? name)) q.

(** [set(name, value)]: the first pair with that name takes the value
    and the other pairs with that name go; with no such pair, the new
    one is appended. *)
Fixpoint set (name value : string) (q : t) : t :=
  match q with
  | [] => [(name, value)]
  | (n, v) :: rest =>
      if n =? name then (n, value) :: remove name rest
      else (n, v) :: set name value rest
  end.

(** *** The application/x-www-form-urlencoded serialiser *)

Definition hex_upper (n : N) : ascii :=
  if (n <? 10)%N then ascii_of_N (48 + n) else ascii_of_N (55 + n).

(** Bytes written as they are: ASCII letters and digits, [*], [-], [.]
    and [_]. *)
Definition unreserved (c : ascii) : bool :=
  let n := N_of_ascii c in
  ((48 <=? n) && (n <=? 57) || (65 <=? n) && (n <=? 90) || (97 <=? n) && (n <=? 122)
   || (n =? 42) || (n =? 45) || (n =? 46) || (n =? 95))%N.

Definition encode_byte (c : ascii) : string :=
  let n := N_of_ascii c in
  if (n =? 32)%N then "+"
  else if unreserved c then String c EmptyString
  else String "%" (String (hex_upper (n / 16)) (String (hex_upper (n mod 16)) EmptyString)).

Fixpoint encode (s : string) : string :=
  match s with
  | EmptyString => EmptyString
  | String c s' => encode_byte c ++ encode s'
  end.

Definition encode_pair (p : string * string) : string :=
  encode (fst p) ++ "=" ++ encode (snd p).

(** [toString()] *)
Definition toString (q : t) : string :=
  Js.join "&" (map encode_pair q).

(** *** The application/x-www-form-urlencoded parser

    It is what the receiving server (or [new URLSearchParams(text)])
    applies to the query string; the source never calls it.  It is here
    to say what a serialised query string means. *)

Definition hex_value (c : ascii) : option N :=
  let n := N_of_ascii c in
  if ((48 <=? n) && (n <=? 57))%N then Some (n - 48)%N
  else if ((65 <=? n) && (n <=? 70))%N then Some (n - 55)%N
  else if ((97 <=? n) && (n <=? 102))%N then Some (n - 87)%N
  else None.

Fixpoint percent_decode (s : string) : string :=
  match s with
  | EmptyString => EmptyString
  | String c s' =>
      if (c =? "%")%char then
        match s' with
        | String h (String l rest) =>
            match hex_value h, hex_value l with
            | Some a, Some b => String (ascii_of_N (16 * a + b)) (percent_decode rest)
            | _, _ => String c (percent_decode s')
            end
        | _ => String c (percent_decode s')
        end
      else String c (percent_decode s')
  end.

Fixpoint plus_to_space (s : string) : string :=
  match s with
  | EmptyString => EmptyString
  | String c s' => String (if (c =? "+")%char then " "%char else c) (plus_to_space s')
  end.

Definition decode (s : string) : string := percent_decode (plus_to_space s).

(** The pieces of [s] between the occurrences of [sep]. *)
Fixpoint split (sep : ascii) (s : string) : list string :=
  match s with
  | EmptyString => [EmptyString]
  | String c s' =>
      if (c =? sep)%char then EmptyString :: split sep s'
      else match split sep s' with
           | [] => [String c EmptyString]
           | piece :: pieces => String c piece :: pieces
           end
  end.

(** [s] cut at its first [sep]; all of [s] and the empty string when
    there is none. *)
Fixpoint cut (sep : ascii) (s : string) : string * string :=
  match s with
  | EmptyString => (EmptyString, EmptyString)
  | String c s' =>
      if (c =? sep)%char then (EmptyString, s')
      else let (name, value) := cut sep s' in (String c name, value)
  end.

Definition parse_pair (piece : string) : string * string :=
  let (name, value) := cut "=" piece in (decode name, decode value).

Definition parse (s : string) : t :=
  map parse_pair (filter (fun piece => negb (piece =? EmptyString)) (split "&" s)).

End URLSearchParams.

(** ** The network and the console

    [fetch(url, init)] hands a request to the remote store and settles
    with its response, or rejects when the transport fails.  A response
    carries its status and what its [json()] method settles with: the
    parsed body, or nothing when the body text is not valid JSON. *)

Record Request : Type := mkRequest {
  url : string;
  body : JSValue;
  method : string;
  headers : list (string * string)
}.

Record Response : Type := mkResponse {
  status : Z;
  json_body : option JSValue
}.

Record World : Type := mkWorld {
  remote : Request -> Completion Response;
  sent : list Request;          (* the requests handed to [fetch], oldest first *)
  console : list string         (* the lines written by [console.log] *)
}.

(** An effectful computation: it may send, log, and complete or throw. *)
Definition M (A : Type) : Type := World -> Completion A * World.

Definition ret {A} (a : A) : M A := fun w => (Resolved a, w).

Definition bind {A B} (c : M A) (k : A -> M B) : M B :=
  fun w => match c w with
           | (Resolved a, w') => k a w'
           | (Rejected e, w') => (Rejected e, w')
           end.

Definition bindC {A B} (c : Completion A) (k : A -> Completion B) : Completion B :=
  match c with
  | Resolved a => k a
  | Rejected e => Rejected e
  end.

(** A pure computation that may throw, run inside an [async] function. *)
Definition lift {A} (c : Completion A) : M A := fun w => (c, w).

Notation "x <- c ;; k" := (bind c (fun x => k))
  (at level 61, c at next level, right associativity).
Notation "c1 ;; c2" := (bind c1 (fun _ => c2))
  (at level 61, right associativity).
Notation "x <~ c ;; k" := (bindC c (fun x => k))
  (at level 61, c at next level, right associativity).

Definition console_log (line : string) : M unit :=
  fun w => (Resolved tt, mkWorld (remote w) (sent w) (console w ++ [line])%list).

Definition fetch (req : Request) : M Response :=
  fun w => (remote w req, mkWorld (remote w) (sent w ++ [req])%list (console w)).

(** [res.json()] *)
Definition Response_json (res : Response) : M JSValue :=
  lift (match json_body res with
        | Some v => Resolved v
        | None => Rejected SyntaxError
        end).

(** The [init] object [{body, method, headers}] as [JSON.stringify] sees
    it when the request is logged. *)
Definition init_value (req : Request) : JSValue :=
  JObj [("body", body req);
        ("method", JStr (method req));
        ("headers", JObj (map (fun h => (fst h, JStr (snd h))) (headers req)))].

(** ** The credentials

    [process.env] maps a variable name to its value, if it is set.  The
    three module constants are read from it when the module is evaluated.
    The postfix [!] of TypeScript is a non-null assertion for the type
    checker; it is erased from the emitted code. *)

Definition Env : Type := string -> option string.

Record Config : Type := mkConfig {
  WOOCOMMERCE_URL : option string;
  CONSUMER_KEY : option string;
  CONSUMER_SECRET : option string
}.

Definition non_null_assertion {A} (v : option A) : option A := v.

(** Lines 3-5: the evaluation of the module's top level. *)
Definition load (env : Env) : Completion Config :=
  let url := non_null_assertion (non_null_assertion (env "WOOCOMMERCE_URL")) in
  let key := non_null_assertion (non_null_assertion (env "WOOCOMMERCE_CONSUMER_KEY")) in
  let secret := non_null_assertion (non_null_assertion (env "WOOCOMMERCE_CONSUMER_SECRET")) in
  Resolved (mkConfig url key secret).

(** The order information of the messaging layer ([OrderInfo] of
    [@telegraf/types]): every field may be missing. *)
Record ShippingAddress : Type := mkShippingAddress {
  country_code : string;
  state : string;
  city : string;
  street_line1 : string;
  street_line2 : string;
  post_code : string
}.

Record OrderInfo : Type := mkOrderInfo {
  name : option string;
  phone_number : option string;
  email : option string;
  shipping_address : option ShippingAddress
}.

(** [orderInfo.shipping_address?.field] *)
Definition address_field (o : OrderInfo) (field : ShippingAddress -> string) : JSValue :=
  match shipping_address o with
  | Some a => JStr (field a)
  | None => JUndefined
  end.

(** ** Array methods with a callback that may throw *)
Module JsArray.

(** The receiver of [.filter]: only an array has the method; reading it
    off [null] throws, and calling what any other value has there
    (nothing) throws as well. *)
Definition receiver (v : JSValue) : Completion (list JSValue) :=
  match v with
  | JArr items => Resolved items
  | _ => Rejected TypeError
  end.

Fixpoint filter (f : JSValue -> Completion JSValue) (items : list JSValue)
  : Completion (list JSValue) :=
  match items with
  | [] => Resolved []
  | x :: rest =>
      keep <~ f x ;;
      kept <~ filter f rest ;;
      Resolved (if Js.truthy keep then x :: kept else kept)
  end.

Fixpoint map (f : JSValue -> Completion JSValue) (items : list JSValue)
  : Completion (list JSValue) :=
  match items with
  | [] => Resolved []
  | x :: rest =>
      y <~ f x ;;
      ys <~ map f rest ;;
      Resolved (y :: ys)
  end.

End JsArray.

(** ** The module's functions, in the order of the source *)
Section Woo.

Variable cfg : Config.

(** Lines 51-70.  (The source updates the caller's [query] object in
    place; no function of the module reads it after the call, so the
    model keeps the updated list local.) *)
Definition call (method api : string) (query : option URLSearchParams.t) (body : JSValue)
  : M Response :=
  let headers := [("Content-Type", "application/json")] in
  let url := Js.replace "//" "/"
               (Js.opt_toString (WOOCOMMERCE_URL cfg) ++ "/wp-json/wc/v3/" ++ api) in
  let query := match query with
               | Some q => q
               | None => URLSearchParams.empty
               end in
  let query := URLSearchParams.set "consumer_secret"
                 (Js.opt_toString (CONSUMER_SECRET cfg)) query in
  let query := URLSearchParams.set "consumer_key"
                 (Js.opt_toString (CONSUMER_KEY cfg)) query in
  let url := url ++ "?" ++ URLSearchParams.toString query in
  let body := if Js.truthy body then Js.js_of_opt (JSON.stringify body) else body in
  let request := mkRequest url body method headers in
  console_log ("Proxy woo: " ++ url ++ " | "
               ++ Js.opt_toString (JSON.stringify (init_value request))) ;;
  fetch request.

(** Lines 15-17, 27-29 and 38-40. *)
Definition put (api : string) (body : JSValue) (query : option URLSearchParams.t)
  : M Response :=
  call "PUT" api query body.

Definition post (api : string) (body : JSValue) (query : option URLSearchParams.t)
  : M Response :=
  call "POST" api query body.

Definition get (api : string) (query : option URLSearchParams.t) : M Response :=
  call "GET" api query JUndefined.

(** Lines 79-87. *)
Definition createOrder (line_items : list JSValue) (customer_note : string) : M JSValue :=
  let body := JObj [("set_paid", JBool false);
                    ("line_items", JArr line_items);
                    ("customer_note", JStr customer_note)] in
  res <- post "orders" body None ;;
  Response_json res.

(** Lines 96-98. *)
Definition updateOrder (orderId : Z) (update : JSValue) : M Response :=
  put ("orders/" ++ Js.Number_toString orderId) update None.

(** Lines 100-126. *)
Definition updateOrderInfo (orderId : Z) (orderInfo : OrderInfo) : M Response :=
  let update :=
    JObj [("shipping",
            JObj [("first_name", Js.js_of_opt (name orderInfo));
                  ("last_name", Js.js_of_opt (name orderInfo));
                  ("address_1", address_field orderInfo street_line1);
                  ("address_2", address_field orderInfo street_line2);
                  ("city", address_field orderInfo city);
                  ("state", address_field orderInfo state);
                  ("postcode", address_field orderInfo post_code);
                  ("country", address_field orderInfo country_code)]);
          ("billing",
            JObj [("first_name", Js.js_of_opt (name orderInfo));
                  ("last_name", Js.js_of_opt (name orderInfo));
                  ("email", Js.js_of_opt (email orderInfo));
                  ("phone", Js.js_of_opt (phone_number orderInfo));
                  ("address_1", address_field orderInfo street_line1);
                  ("address_2", address_field orderInfo street_line2);
                  ("city", address_field orderInfo city);
                  ("state", address_field orderInfo state);
                  ("postcode", address_field orderInfo post_code);
                  ("country", address_field orderInfo country_code)])] in
  updateOrder orderId update.

(** Lines 128-133. *)
Definition setOrderPaid (orderId : Z) : M Response :=
  let update := JObj [("set_paid", JBool true)] in
  updateOrder orderId update.

(** Lines 139-146: the two callbacks and the chain. *)
Definition enabled_of (method : JSValue) : Completion JSValue :=
  Js.getprop method "enabled".

Definition shipping_option (method : JSValue) : Completion JSValue :=
  id <~ Js.getprop method "method_id" ;;
  title <~ Js.getprop method "method_title" ;;
  Resolved (JObj [("id", id);
                  ("title", title);
                  ("prices", JArr [JObj [("label", JStr "Free"); ("amount", JNum 0)]])]).

Definition select_shipping_options (methods : JSValue) : Completion JSValue :=
  items <~ JsArray.receiver methods ;;
  enabled <~ JsArray.filter enabled_of items ;;
  options <~ JsArray.map shipping_option enabled ;;
  Resolved (JArr options).

(** Lines 136-147.  (The source reaches [get] through the exported object,
    [woo.get]; the module never reassigns that member, and the model calls
    the module's own [get].) *)
Definition getShippingOptions (zoneId : Z) : M JSValue :=
  res <- get ("shipping/zones/" ++ Js.Number_toString zoneId ++ "/methods") None ;;
  methods <- Response_json res ;;
  lift (select_shipping_options methods).

(** Lines 155-187. *)
Definition createUser (orderInfo : OrderInfo) : M JSValue :=
  let body :=
    JObj [("email", Js.js_of_opt (email orderInfo));
          ("first_name", Js.js_of_opt (name orderInfo));
          ("last_name", Js.js_of_opt (name orderInfo));
          ("username", Js.js_of_opt (name orderInfo));
          ("shipping",
            JObj [("first_name", Js.js_of_opt (name orderInfo));
                  ("last_name", Js.js_of_opt (name orderInfo));
                  ("address_1", address_field orderInfo street_line1);
                  ("address_2", address_field orderInfo street_line2);
                  ("city", address_field orderInfo city);
                  ("state", address_field orderInfo state);
                  ("postcode", address_field orderInfo post_code);
                  ("country", address_field orderInfo country_code)]);
          ("billing",
            JObj [("first_name", Js.js_of_opt (name orderInfo));
                  ("last_name", Js.js_of_opt (name orderInfo));
                  ("email", Js.js_of_opt (email orderInfo));
                  ("phone", Js.js_of_opt (phone_number orderInfo));
                  ("address_1", address_field orderInfo street_line1);
                  ("address_2", address_field orderInfo street_line2);
                  ("city", address_field orderInfo city);
                  ("state", address_field orderInfo state);
                  ("postcode", address_field orderInfo post_code);
                  ("country", address_field orderInfo country_code)])] in
  res <- post "customers" body None ;;
  Response_json res.

End Woo.
(** Lines 189-191: the exported object.  An invocation of one of its six
    members, and what the caller gets back: the raw response or a value. *)
Inductive Operation : Type :=
| Get (api : string) (query : option URLSearchParams.t)
| CreateOrder (line_items : list JSValue) (customer_note : string)
| CreateUser (orderInfo : OrderInfo)
| UpdateOrderInfo (orderId : Z) (orderInfo : OrderInfo)
| SetOrderPaid (orderId : Z)
| GetShippingOptions (zoneId : Z).

Inductive Outcome : Type :=
| Raw (res : Response)
| Value (v : JSValue).

Definition woo (cfg : Config) (op : Operation) : M Outcome :=
  match op with
  | Get api query => res <- get cfg api query ;; ret (Raw res)
  | CreateOrder line_items customer_note =>
      v <- createOrder cfg line_items customer_note ;; ret (Value v)
  | CreateUser orderInfo => v <- createUser cfg orderInfo ;; ret (Value v)
  | UpdateOrderInfo orderId orderInfo =>
      res <- updateOrderInfo cfg orderId orderInfo ;; ret (Raw res)
  | SetOrderPaid orderId => res <- setOrderPaid cfg orderId ;; ret (Raw res)
  | GetShippingOptions zoneId => v <- getShippingOptions cfg zoneId ;; ret (Value v)
  end.

(** ** Vocabulary of the statements *)

(** [c] does not occur in [s]. *)
Fixpoint lacks (c : ascii) (s : string) : bool :=
  match s with
  | EmptyString => true
  | String x s' => negb (x =? c)%char && lacks c s'
  end.

(** [s.includes(pat)] *)
Fixpoint includes (pat s : string) : bool :=
  prefix pat s ||
  match s with
  | EmptyString => false
  | String _ s' => includes pat s'
  end.

(** The pairs of a query named [name]. *)
Definition named (name : string) (q : URLSearchParams.t) : URLSearchParams.t :=
  List.filter (fun p => fst p =? name) q.

(** The address a call goes to, before the query string (line 56). *)
Definition endpoint (cfg : Config) (api : string) : string :=
  Js.replace "//" "/" (Js.opt_toString (WOOCOMMERCE_URL cfg) ++ "/wp-json/wc/v3/" ++ api).

(** The query a call serialises (lines 57-60). *)
Definition signed (cfg : Config) (query : option URLSearchParams.t) : URLSearchParams.t :=
  URLSearchParams.set "consumer_key" (Js.opt_toString (CONSUMER_KEY cfg))
    (URLSearchParams.set "consumer_secret" (Js.opt_toString (CONSUMER_SECRET cfg))
       (match query with Some q => q | None => URLSearchParams.empty end)).

(** The body text of a request whose payload is the object [payload]. *)
Definition json_text (payload : JSValue) : JSValue :=
  Js.js_of_opt (JSON.stringify payload).

(** The request a call with these arguments hands to [fetch]. *)
Definition request_to (cfg : Config) (method api : string)
  (query : option URLSearchParams.t) (body : JSValue) : Request :=
  mkRequest (endpoint cfg api ++ "?" ++ URLSearchParams.toString (signed cfg query))
            (if Js.truthy body then json_text body else body)
            method
            [("Content-Type", "application/json")].

Definition log_line (req : Request) : string :=
  "Proxy woo: " ++ url req ++ " | " ++ Js.opt_toString (JSON.stringify (init_value req)).

(** The world once [req] has been logged and sent. *)
Definition after (w : World) (req : Request) : World :=
  mkWorld (remote w) (sent w ++ [req])%list (console w ++ [log_line req])%list.

(** What an [async] function that awaits [res.json()] settles with. *)
Definition parsed (c : Completion Response) : Completion JSValue :=
  res <~ c ;;
  match json_body res with
  | Some v => Resolved v
  | None => Rejected SyntaxError
  end.

(** The value of property [k] of an entry, [undefined] when there is none. *)
Definition field (x : JSValue) (k : string) : JSValue :=
  match x with
  | JObj props => match Js.lookup k props with Some v => v | None => JUndefined end
  | _ => JUndefined
  end.

Definition nullish (v : JSValue) : bool :=
  match v with
  | JUndefined | JNull => true
  | _ => false
  end.

(** An entry the filter of [getShippingOptions] keeps. *)
Definition is_enabled (x : JSValue) : bool := Js.truthy (field x "enabled").

(** An entry whose [enabled] flag is the boolean [true]. *)
Definition flag_is_true (x : JSValue) : bool :=
  match field x "enabled" with
  | JBool true => true
  | _ => false
  end.

(** The shipping option made of a remote method. *)
Definition projection (x : JSValue) : JSValue :=
  JObj [("id", field x "method_id");
        ("title", field x "method_title");
        ("prices", JArr [JObj [("label", JStr "Free"); ("amount", JNum 0)]])].

(** The options as the specification words them: the entries whose flag is
    [true], projected. *)
Definition spec_options (methods : list JSValue) : list JSValue :=
  List.map projection (List.filter flag_is_true methods).

(** [l1] is [l2] with some elements left out, the others in their order. *)
Inductive Subseq {A : Type} : list A -> list A -> Prop :=
| Subseq_nil : Subseq [] []
| Subseq_keep x l1 l2 : Subseq l1 l2 -> Subseq (x :: l1) (x :: l2)
| Subseq_drop x l1 l2 : Subseq l1 l2 -> Subseq l1 (x :: l2).

(** An entry whose [enabled] is a boolean, or is missing. *)
Definition boolean_flag (x : JSValue) : bool :=
  match field x "enabled" with
  | JBool _ | JUndefined => true
  | _ => false
  end.

(** The properties of an object other than those named in [keys]. *)
Definition without (keys : list string) (props : list (string * JSValue))
  : list (string * JSValue) :=
  List.filter (fun p => negb (existsb (String.eqb (fst p)) keys)) props.

(** The query component of an address, as a URL parser cuts it: the text
    after the first [?], up to the first [#]; none when there is no [?]
    before the first [#]. *)
Fixpoint url_query (u : string) : option string :=
  match u with
  | EmptyString => None
  | String c u' =>
      if (c =? "?")%char then Some (fst (URLSearchParams.cut "#" u'))
      else if (c =? "#")%char then None
      else url_query u'
  end.

(** A text with no [?] and no [#]. *)
Definition plain (s : string) : bool := lacks "?" s && lacks "#" s.

(** The endpoint path each exported operation passes to the call. *)
Definition api_of (op : Operation) : string :=
  match op with
  | Get api _ => api
  | CreateOrder _ _ => "orders"
  | CreateUser _ => "customers"
  | UpdateOrderInfo orderId _ => "orders/" ++ Js.Number_toString orderId
  | SetOrderPaid orderId => "orders/" ++ Js.Number_toString orderId
  | GetShippingOptions zoneId =>
      "shipping/zones/" ++ Js.Number_toString zoneId ++ "/methods"
  end.

(** An operation whose endpoint path is not in the caller's hands. *)
Definition fixed_endpoint (op : Operation) : bool :=
  match op with
  | Get _ _ => false
  | _ => true
  end.

(** The method and the query each exported operation passes to the call. *)
Definition method_of (op : Operation) : string :=
  match op with
  | Get _ _ | GetShippingOptions _ => "GET"
  | CreateOrder _ _ | CreateUser _ => "POST"
  | UpdateOrderInfo _ _ | SetOrderPaid _ => "PUT"
  end.

Definition query_of (op : Operation) : option URLSearchParams.t :=
  match op with
  | Get _ query => query
  | _ => None
  end.

(** [t] occurs in [s]. *)
Definition occurs (t s : string) : Prop := exists pre post, s = pre ++ t ++ post.



Definition is_object (x : JSValue) : bool :=
  match x with
  | JObj _ => true
  | _ => false
  end.

(** Two remote entries that [getShippingOptions] cannot tell apart: both
    kept or both dropped, with the same identifier and title. *)
Definition same_method (x y : JSValue) : Prop :=
  is_enabled x = is_enabled y /\
  field x "method_id" = field y "method_id" /\
  field x "method_title" = field y "method_title".

(** The integer a decimal numeral stands for. *)
Definition read_decimal (s : string) : option Z :=
  option_map Z.of_int (NilZero.int_of_string s).

(** What the operations that do not parse the response make of it, and
    what those that parse it do (lines 86, 138-146 and 186). *)
Definition settle (op : Operation) (res : Response) : Completion Outcome :=
  match op with
  | Get _ _ | UpdateOrderInfo _ _ | SetOrderPaid _ => Resolved (Raw res)
  | CreateOrder _ _ | CreateUser _ =>
      v <~ parsed (Resolved res) ;; Resolved (Value v)
  | GetShippingOptions _ =>
      methods <~ parsed (Resolved res) ;;
      options <~ select_shipping_options methods ;;
      Resolved (Value options)
  end.

(** The operations that hand the response back as [fetch] gave it. *)
Definition returns_raw (op : Operation) : bool :=
  match op with
  | Get _ _ | UpdateOrderInfo _ _ | SetOrderPaid _ => true
  | _ => false
  end.

(** ** Sample data *)
Module Sample.

Definition cfg : Config :=
  mkConfig (Some "https://shop.example/") (Some "ck_live") (Some "cs_live").

Definition answering (res : Response) : World :=
  mkWorld (fun _ => Resolved res) [] [].

Definition flat_rate : JSValue :=
  JObj [("method_id", JStr "flat"); ("method_title", JStr "Flat Rate");
        ("enabled", JBool true)].

Definition disabled : JSValue :=
  JObj [("method_id", JStr "x"); ("enabled", JBool false)].

Definition alice : OrderInfo :=
  mkOrderInfo (Some "Alice") (Some "+49 30 1234") (Some "alice@shop.example")
    (Some (mkShippingAddress "DE" "BE" "Berlin" "Unter den Linden 1" "c/o Bob" "10117")).

Definition items : list JSValue :=
  [JObj [("product_id", JNum 1); ("quantity", JNum 2)]].

(** The body of a route error, as the remote store sends it with a 404. *)
Definition route_error : JSValue :=
  JObj [("code", JStr "rest_no_route");
        ("message", JStr "No route was found matching the URL and request method.");
        ("data", JObj [("status", JNum 404)])].

End Sample.

(** * Properties *)

(** ** Strings *)
Section StringFacts.

Lemma append_nil_r (s : string) : s ++ EmptyString = s.
Proof. induction s as [|c s IH]; simpl; [reflexivity | now rewrite IH]. Qed.

Lemma append_assoc (a b c : string) : (a ++ b) ++ c = a ++ (b ++ c).
Proof. induction a as [|x a IH]; simpl; [reflexivity | now rewrite IH]. Qed.

Lemma length_append (a b : string) :
  String.length (a ++ b) = String.length a + String.length b.
Proof. induction a as [|x a IH]; simpl; [reflexivity | now rewrite IH]. Qed.

Lemma substring_all (s : string) : substring 0 (String.length s) s = s.
Proof. induction s as [|c s IH]; simpl; [reflexivity | now rewrite IH]. Qed.

Lemma substring_skip (a b : string) :
  substring (String.length a) (String.length b) (a ++ b) = b.
Proof. induction a as [|x a IH]; simpl; [apply substring_all | exact IH]. Qed.

Lemma prefix_append (a b : string) : prefix a (a ++ b) = true.
Proof.
  induction a as [|x a IH]; simpl.
  - now destruct b.
  - destruct (ascii_dec x x) as [_|ne]; [exact IH | now elim ne].
Qed.

End StringFacts.

(** ** The query string *)
Module QueryFacts.
Import URLSearchParams.

Lemma lacks_append c a b : lacks c (a ++ b) = lacks c a && lacks c b.
Proof.
  induction a as [|x a IH]; simpl; [reflexivity|].
  now rewrite IH, andb_assoc.
Qed.

(** A serialised byte never holds a separator. *)
Lemma encode_byte_lacks (c : ascii) :
  lacks "&" (encode_byte c) = true /\ lacks "=" (encode_byte c) = true.
Proof. destruct c as [[] [] [] [] [] [] [] []]; split; reflexivity. Qed.

Lemma encode_lacks (s : string) :
  lacks "&" (encode s) = true /\ lacks "=" (encode s) = true.
Proof.
  induction s as [|c s [IHa IHe]]; simpl; [now split|].
  destruct (encode_byte_lacks c) as [Ha He].
  rewrite !lacks_append, Ha, He, IHa, IHe. now split.
Qed.

(** Decoding undoes the serialisation of one byte, whatever follows. *)
Lemma decode_encode_byte (c : ascii) (rest : string) :
  decode (encode_byte c ++ rest) = String c (decode rest).
Proof. destruct c as [[] [] [] [] [] [] [] []]; reflexivity. Qed.

Lemma decode_encode (s : string) : decode (encode s) = s.
Proof.
  induction s as [|c s IH]; [reflexivity|].
  simpl encode. now rewrite decode_encode_byte, IH.
Qed.

Lemma cut_lacks sep (a b : string) :
  lacks sep a = true -> cut sep (a ++ String sep b) = (a, b).
Proof.
  induction a as [|x a IH]; simpl; intros H.
  - now rewrite Ascii.eqb_refl.
  - apply andb_true_iff in H as [Hx Ha].
    apply negb_true_iff in Hx. rewrite Hx, (IH Ha). reflexivity.
Qed.

Lemma parse_encode_pair (p : string * string) : parse_pair (encode_pair p) = p.
Proof.
  destruct p as [n v]. unfold parse_pair, encode_pair. simpl fst; simpl snd.
  change (encode n ++ "=" ++ encode v) with (encode n ++ String "=" (encode v)).
  rewrite cut_lacks by apply encode_lacks.
  now rewrite !decode_encode.
Qed.

Lemma split_lacks sep (s : string) : lacks sep s = true -> split sep s = [s].
Proof.
  induction s as [|x s IH]; simpl; intros H; [reflexivity|].
  apply andb_true_iff in H as [Hx Hs].
  apply negb_true_iff in Hx. now rewrite Hx, (IH Hs).
Qed.

Lemma split_append sep (a b : string) :
  lacks sep a = true -> split sep (a ++ String sep b) = a :: split sep b.
Proof.
  induction a as [|x a IH]; simpl; intros H.
  - now rewrite Ascii.eqb_refl.
  - apply andb_true_iff in H as [Hx Ha].
    apply negb_true_iff in Hx. now rewrite Hx, (IH Ha).
Qed.

Lemma encode_pair_lacks (p : string * string) : lacks "&" (encode_pair p) = true.
Proof.
  unfold encode_pair. rewrite !lacks_append.
  destruct (encode_lacks (fst p)) as [-> _], (encode_lacks (snd p)) as [-> _].
  reflexivity.
Qed.

Lemma encode_pair_nonempty (p : string * string) :
  (encode_pair p =? EmptyString) = false.
Proof.
  apply String.eqb_neq. unfold encode_pair.
  destruct (encode (fst p)); discriminate.
Qed.

Lemma split_toString (p : string * string) (q : t) :
  split "&" (toString (p :: q)) = List.map encode_pair (p :: q).
Proof.
  revert p. induction q as [|p' q IH]; intros p.
  - simpl. apply split_lacks, encode_pair_lacks.
  - change (toString (p :: p' :: q))
      with (encode_pair p ++ String "&" (toString (p' :: q))).
    rewrite split_append by apply encode_pair_lacks.
    now rewrite IH.
Qed.

(** What is serialised is what the receiver parses. *)
Lemma parse_toString (q : t) : parse (toString q) = q.
Proof.
  destruct q as [|p q]; [reflexivity|].
  unfold parse. rewrite split_toString.
  induction (p :: q) as [|x l IH]; [reflexivity|].
  simpl. rewrite encode_pair_nonempty. simpl.
  now rewrite parse_encode_pair, IH.
Qed.

End QueryFacts.

(** ** [URLSearchParams.set] *)
Module SetFacts.
Import URLSearchParams.

Lemma named_remove_same name q : named name (remove name q) = [].
Proof.
  unfold named, remove. induction q as [|[n v] q IH]; simpl; [reflexivity|].
  destruct (n =? name) eqn:E; simpl; [exact IH | now rewrite E].
Qed.


(** After [set], exactly one pair has the name, and it has the value. *)
Lemma named_set name value q : named name (set name value q) = [(name, value)].
Proof.
  induction q as [|[n v] q IH]; simpl.
  - now rewrite String.eqb_refl.
  - destruct (n =? name) eqn:E.
    + apply String.eqb_eq in E. subst n. unfold named at 1. simpl.
      rewrite String.eqb_refl. f_equal. apply named_remove_same.
    + unfold named at 1. simpl. rewrite E. exact IH.
Qed.

Lemma get_set_same name value q : get name (set name value q) = Some value.
Proof.
  induction q as [|[n v] q IH]; simpl.
  - now rewrite String.eqb_refl.
  - destruct (n =? name) eqn:E; simpl; now rewrite E.
Qed.

Lemma get_remove_other name other q :
  other <> name -> get other (remove name q) = get other q.
Proof.
  intros ne. unfold remove. induction q as [|[n v] q IH]; simpl; [reflexivity|].
  destruct (n =? name) eqn:E; simpl.
  - apply String.eqb_eq in E. subst n.
    apply String.eqb_neq in ne. rewrite String.eqb_sym in ne. now rewrite ne.
  - now rewrite IH.
Qed.

Lemma get_set_other name other value q :
  other <> name -> get other (set name value q) = get other q.
Proof.
  intros ne. induction q as [|[n v] q IH]; simpl.
  - apply String.eqb_neq in ne. rewrite String.eqb_sym in ne. now rewrite ne.
  - destruct (n =? name) eqn:E; simpl.
    + apply String.eqb_eq in E. subst n.
      assert (E' : (name =? other) = false)
        by (apply String.eqb_neq; congruence).
      now rewrite E', get_remove_other.
    + now rewrite IH.
Qed.


Lemma remove_comm a b q : remove a (remove b q) = remove b (remove a q).
Proof.
  unfold remove. induction q as [|[n v] q IH]; simpl; [reflexivity|].
  destruct (n =? a) eqn:Ea, (n =? b) eqn:Eb; simpl;
    rewrite ?Ea, ?Eb; simpl; now rewrite ?IH.
Qed.

Lemma remove_set_other name other value q :
  other <> name ->
  remove other (set name value q) = set name value (remove other q).
Proof.
  intros ne. induction q as [|[n v] q IH]; simpl.
  - unfold remove. simpl.
    apply String.eqb_neq in ne. rewrite String.eqb_sym in ne. now rewrite ne.
  - destruct (n =? name) eqn:E.
    + apply String.eqb_eq in E. subst n.
      assert (E' : (name =? other) = false)
        by (apply String.eqb_neq; congruence).
      unfold remove at 1 3. simpl. rewrite E'. simpl.
      rewrite String.eqb_refl. f_equal. apply remove_comm.
    + unfold remove at 1 2. simpl.
      destruct (n =? other) eqn:E2; simpl.
      * exact IH.
      * rewrite E. f_equal. exact IH.
Qed.

End SetFacts.

(** ** What running each function does to the world *)
Section Runs.

Variable cfg : Config.
Variable w : World.

Lemma call_run method api query body :
  call cfg method api query body w
  = (remote w (request_to cfg method api query body),
     after w (request_to cfg method api query body)).
Proof. reflexivity. Qed.

Lemma get_run api query :
  get cfg api query w
  = (remote w (request_to cfg "GET" api query JUndefined),
     after w (request_to cfg "GET" api query JUndefined)).
Proof. apply call_run. Qed.

Lemma post_run api body :
  post cfg api body None w
  = (remote w (request_to cfg "POST" api None body),
     after w (request_to cfg "POST" api None body)).
Proof. apply call_run. Qed.

Lemma updateOrder_run orderId update :
  updateOrder cfg orderId update w
  = (remote w (request_to cfg "PUT" ("orders/" ++ Js.Number_toString orderId) None update),
     after w (request_to cfg "PUT" ("orders/" ++ Js.Number_toString orderId) None update)).
Proof. apply call_run. Qed.

(** An [async] function that posts and awaits the parsed body. *)
Lemma post_json_run api body :
  (res <- post cfg api body None ;; Response_json res) w
  = (parsed (remote w (request_to cfg "POST" api None body)),
     after w (request_to cfg "POST" api None body)).
Proof.
  unfold bind. rewrite post_run.
  destruct (remote w _) as [res|e]; reflexivity.
Qed.

Lemma getShippingOptions_run zoneId :
  let req := request_to cfg "GET"
               ("shipping/zones/" ++ Js.Number_toString zoneId ++ "/methods")
               None JUndefined in
  getShippingOptions cfg zoneId w
  = (methods <~ parsed (remote w req) ;; select_shipping_options methods,
     after w req).
Proof.
  intros req. unfold getShippingOptions, bind. rewrite get_run. fold req.
  destruct (remote w req) as [res|e]; [|reflexivity].
  unfold Response_json, lift, parsed. simpl.
  destruct (json_body res); reflexivity.
Qed.

End Runs.

(** ** The filter and the projection of [getShippingOptions] *)
Section ShippingFacts.

Lemma enabled_of_entry (x : JSValue) :
  nullish x = false -> enabled_of x = Resolved (field x "enabled").
Proof.
  destruct x; simpl; try discriminate; try reflexivity.
  intros _. unfold enabled_of, field. simpl. now destruct (Js.lookup _ _).
Qed.

Lemma enabled_of_nullish (x : JSValue) :
  nullish x = true -> enabled_of x = Rejected TypeError.
Proof. destruct x; simpl; try discriminate; reflexivity. Qed.

Lemma shipping_option_entry (x : JSValue) :
  nullish x = false -> shipping_option x = Resolved (projection x).
Proof.
  destruct x; simpl; try discriminate; try reflexivity.
  intros _. unfold shipping_option, projection, field. simpl.
  destruct (Js.lookup "method_id" props), (Js.lookup "method_title" props); reflexivity.
Qed.

(** An entry the filter keeps is an object, so the projection can read it. *)
Lemma is_enabled_entry (x : JSValue) : is_enabled x = true -> nullish x = false.
Proof. destruct x; simpl; try reflexivity; discriminate. Qed.

Lemma filter_entries (items : list JSValue) :
  existsb nullish items = false ->
  JsArray.filter enabled_of items = Resolved (List.filter is_enabled items).
Proof.
  induction items as [|x items IH]; simpl; [reflexivity|].
  intros H. apply orb_false_iff in H as [Hx Hitems].
  rewrite (enabled_of_entry x Hx), (IH Hitems). reflexivity.
Qed.

Lemma filter_null_entry (items : list JSValue) :
  existsb nullish items = true ->
  JsArray.filter enabled_of items = Rejected TypeError.
Proof.
  induction items as [|x items IH]; simpl; [discriminate|].
  destruct (nullish x) eqn:Hx; simpl.
  - intros _. now rewrite (enabled_of_nullish x Hx).
  - intros H. rewrite (enabled_of_entry x Hx), (IH H). reflexivity.
Qed.

Lemma map_entries (items : list JSValue) :
  Forall (fun x => is_enabled x = true) items ->
  JsArray.map shipping_option items = Resolved (List.map projection items).
Proof.
  induction 1 as [|x items Hx _ IH]; simpl; [reflexivity|].
  rewrite (shipping_option_entry x (is_enabled_entry x Hx)), IH. reflexivity.
Qed.

Lemma filter_is_enabled (items : list JSValue) :
  Forall (fun x => is_enabled x = true) (List.filter is_enabled items).
Proof.
  apply Forall_forall. intros x Hin. now apply filter_In in Hin.
Qed.

(** The whole chain, on every parsed body. *)
Lemma select_shipping_options_eq (methods : JSValue) :
  select_shipping_options methods
  = match methods with
    | JArr items =>
        if existsb nullish items then Rejected TypeError
        else Resolved (JArr (List.map projection (List.filter is_enabled items)))
    | _ => Rejected TypeError
    end.
Proof.
  destruct methods; try reflexivity.
  unfold select_shipping_options. simpl.
  destruct (existsb nullish items) eqn:H.
  - now rewrite filter_null_entry.
  - rewrite filter_entries by exact H. simpl.
    now rewrite map_entries by apply filter_is_enabled.
Qed.

Lemma filter_Subseq {A} (f : A -> bool) (l : list A) : Subseq (List.filter f l) l.
Proof.
  induction l as [|x l IH]; simpl; [constructor|].
  destruct (f x); now constructor.
Qed.

Lemma is_enabled_boolean_flag (x : JSValue) :
  boolean_flag x = true -> is_enabled x = flag_is_true x.
Proof.
  unfold boolean_flag, is_enabled, flag_is_true.
  destruct (field x "enabled") as [| |[]| | | |]; simpl; intros; congruence.
Qed.

Lemma filter_boolean_flags (items : list JSValue) :
  forallb boolean_flag items = true ->
  List.filter is_enabled items = List.filter flag_is_true items.
Proof.
  induction items as [|x items IH]; simpl; [reflexivity|].
  intros H. apply andb_true_iff in H as [Hx Hitems].
  now rewrite (is_enabled_boolean_flag x Hx), (IH Hitems).
Qed.

End ShippingFacts.

(** ** [String.replace] with a string pattern *)
Section ReplaceFacts.

Lemma replace_eq (pat rep s : string) :
  Js.replace pat rep s
  = if prefix pat s
    then rep ++ substring (String.length pat) (String.length s - String.length pat) s
    else match s with
         | EmptyString => EmptyString
         | String c s' => String c (Js.replace pat rep s')
         end.
Proof. destruct s; reflexivity. Qed.

(** An occurrence at the very start is the one replaced. *)
Lemma replace_here (pat rep rest : string) :
  Js.replace pat rep (pat ++ rest) = rep ++ rest.
Proof.
  rewrite replace_eq, prefix_append, length_append.
  replace (String.length pat + String.length rest - String.length pat)
    with (String.length rest) by lia.
  now rewrite substring_skip.
Qed.

(** With no doubled slash in [a ++ "/"], the first one of
    [a ++ "//" ++ rest] is the one written out, and it is the one that
    goes. *)
Lemma replace_first_double_slash (a rest : string) :
  includes "//" (a ++ "/") = false ->
  Js.replace "//" "/" (a ++ "//" ++ rest) = a ++ "/" ++ rest.
Proof.
  induction a as [|c a IH]; intros H.
  - apply (replace_here "//" "/" rest).
  - change (includes "//" (String c a ++ "/"))
      with (prefix "//" (String c (a ++ "/")) || includes "//" (a ++ "/")) in H.
    apply orb_false_iff in H as [Hp Hi].
    change ((String c a) ++ "//" ++ rest) with (String c (a ++ "//" ++ rest)).
    rewrite replace_eq.
    assert (Hp' : prefix "//" (String c (a ++ "//" ++ rest)) = false).
    { cbn [prefix] in Hp |- *. destruct (ascii_dec "/" c); [|reflexivity].
      destruct a as [|d a]; cbn [prefix append] in Hp |- *.
      - destruct (ascii_dec "/" "/") as [_|ne]; [discriminate | now elim ne].
      - destruct (ascii_dec "/" d); [|reflexivity].
        now destruct (a ++ "/"). }
    rewrite Hp', (IH Hi). reflexivity.
Qed.

End ReplaceFacts.

(** ** More on [URLSearchParams.set] *)
Section SignedFacts.
Import URLSearchParams.

Lemma named_remove_other name other q :
  other <> name -> named other (remove name q) = named other q.
Proof.
  intros ne. unfold named, remove. induction q as [|[n v] q IH]; simpl; [reflexivity|].
  destruct (n =? name) eqn:E; simpl.
  - apply String.eqb_eq in E. subst n.
    assert (E' : (name =? other) = false) by (apply String.eqb_neq; congruence).
    now rewrite E'.
  - now rewrite IH.
Qed.

Lemma named_set_other name other value q :
  other <> name -> named other (set name value q) = named other q.
Proof.
  intros ne. induction q as [|[n v] q IH]; simpl.
  - unfold named. simpl.
    assert (E' : (name =? other) = false) by (apply String.eqb_neq; congruence).
    now rewrite E'.
  - destruct (n =? name) eqn:E.
    + apply String.eqb_eq in E. subst n.
      assert (E' : (name =? other) = false) by (apply String.eqb_neq; congruence).
      unfold named at 1 2. simpl. rewrite E'.
      now apply named_remove_other.
    + unfold named at 1 2. simpl. destruct (n =? other); [f_equal|]; exact IH.
Qed.

Lemma named_get name value q : named name q = [(name, value)] -> get name q = Some value.
Proof.
  unfold named. induction q as [|[n v] q IH]; simpl; [discriminate|].
  destruct (n =? name) eqn:E.
  - intros H. now injection H as _ -> _.
  - exact IH.
Qed.

Variable cfg : Config.
Variable query : option URLSearchParams.t.

(** The query of every call: one key, one secret, the configured ones. *)
Lemma signed_key :
  named "consumer_key" (signed cfg query)
  = [("consumer_key", Js.opt_toString (CONSUMER_KEY cfg))].
Proof. apply SetFacts.named_set. Qed.

Lemma signed_secret :
  named "consumer_secret" (signed cfg query)
  = [("consumer_secret", Js.opt_toString (CONSUMER_SECRET cfg))].
Proof.
  unfold signed. rewrite named_set_other by discriminate.
  apply SetFacts.named_set.
Qed.


End SignedFacts.

(** ** The query component of the address *)
Section UrlFacts.
Import URLSearchParams.

Lemma encode_byte_plain (c : ascii) : plain (encode_byte c) = true.
Proof. destruct c as [[] [] [] [] [] [] [] []]; reflexivity. Qed.

Lemma plain_append (a b : string) : plain (a ++ b) = plain a && plain b.
Proof.
  unfold plain. rewrite !QueryFacts.lacks_append.
  destruct (lacks "?" a), (lacks "#" a), (lacks "?" b), (lacks "#" b); reflexivity.
Qed.

Lemma encode_plain (s : string) : plain (encode s) = true.
Proof.
  induction s as [|c s IH]; [reflexivity|].
  simpl. now rewrite plain_append, encode_byte_plain, IH.
Qed.

(** A serialised query holds no [?] and no [#]: what follows the [?] that
    the call writes is all query, and all of it. *)
Lemma toString_plain (q : t) : plain (toString q) = true.
Proof.
  unfold toString. induction q as [|p q IH]; [reflexivity|].
  assert (Hp : plain (encode_pair p) = true).
  { unfold encode_pair. now rewrite !plain_append, !encode_plain. }
  destruct q as [|p' q]; [exact Hp|].
  change (Js.join "&" (List.map encode_pair (p :: p' :: q)))
    with (encode_pair p ++ "&" ++ Js.join "&" (List.map encode_pair (p' :: q))).
  now rewrite !plain_append, Hp, IH.
Qed.

Lemma cut_absent sep (s : string) : lacks sep s = true -> cut sep s = (s, EmptyString).
Proof.
  induction s as [|x s IH]; simpl; intros H; [reflexivity|].
  apply andb_true_iff in H as [Hx Hs].
  apply negb_true_iff in Hx. now rewrite Hx, (IH Hs).
Qed.

Lemma url_query_append (path qs : string) :
  plain path = true -> lacks "#" qs = true ->
  url_query (path ++ "?" ++ qs) = Some qs.
Proof.
  intros Hpath Hqs. induction path as [|c path IH]; simpl.
  - now rewrite cut_absent.
  - unfold plain in Hpath. simpl in Hpath.
    apply andb_true_iff in Hpath as [H1 H2].
    apply andb_true_iff in H1 as [Hc1 Hp1].
    apply andb_true_iff in H2 as [Hc2 Hp2].
    apply negb_true_iff in Hc1, Hc2. rewrite Hc1, Hc2.
    apply IH. unfold plain. now rewrite Hp1, Hp2.
Qed.

Lemma lacks_substring c (s : string) (n m : nat) :
  lacks c s = true -> lacks c (substring n m s) = true.
Proof.
  revert n m. induction s as [|x s IH]; intros n m H.
  - now destruct n, m.
  - simpl in H. apply andb_true_iff in H as [Hx Hs].
    destruct n as [|n]; simpl.
    + destruct m as [|m]; [reflexivity|]. simpl. now rewrite Hx, IH.
    + now apply IH.
Qed.

Lemma replace_lacks c (pat rep s : string) :
  lacks c rep = true -> lacks c s = true -> lacks c (Js.replace pat rep s) = true.
Proof.
  intros Hrep. induction s as [|x s IH]; intros Hs; rewrite replace_eq.
  - destruct (prefix pat EmptyString); [|reflexivity].
    rewrite QueryFacts.lacks_append, Hrep. now apply lacks_substring.
  - destruct (prefix pat (String x s)).
    + rewrite QueryFacts.lacks_append, Hrep. now apply lacks_substring.
    + simpl in Hs |- *. apply andb_true_iff in Hs as [Hx Hs'].
      now rewrite Hx, IH.
Qed.

Lemma string_of_uint_plain (d : Decimal.uint) : plain (NilEmpty.string_of_uint d) = true.
Proof. induction d; simpl; auto. Qed.

Lemma Number_toString_plain (n : Z) : plain (Js.Number_toString n) = true.
Proof.
  unfold Js.Number_toString, NilZero.string_of_int, NilZero.string_of_uint.
  destruct (Z.to_int n) as [d|d]; destruct d; try reflexivity;
    apply (string_of_uint_plain (_ _)) || apply string_of_uint_plain.
Qed.

(** The five operations with an endpoint of their own pass a plain one. *)
Lemma fixed_endpoint_plain (op : Operation) :
  fixed_endpoint op = true -> plain (api_of op) = true.
Proof.
  destruct op; cbn [api_of fixed_endpoint]; intros H;
    try discriminate; try reflexivity;
    rewrite !plain_append, Number_toString_plain; reflexivity.
Qed.

Lemma endpoint_plain (base api : string) (key secret : option string) :
  plain base = true -> plain api = true ->
  plain (endpoint (mkConfig (Some base) key secret) api) = true.
Proof.
  intros Hbase Hapi.
  assert (H : plain (base ++ "/wp-json/wc/v3/" ++ api) = true)
    by now rewrite !plain_append, Hbase, Hapi.
  unfold plain in H |- *. apply andb_true_iff in H as [H1 H2].
  unfold endpoint. cbn [Js.opt_toString WOOCOMMERCE_URL].
  now rewrite !replace_lacks.
Qed.

End UrlFacts.

(** ** Every operation sends one request *)
Section OneRequest.

Variable cfg : Config.
Variable w : World.

Lemma sent_bind_ret {A B} (c : M A) (f : A -> B) (w' : World) :
  snd (c w) = w' -> snd ((x <- c ;; ret (f x)) w) = w'.
Proof.
  unfold bind, ret. destruct (c w) as [[a|e] w1]; simpl; auto.
Qed.

(** Whatever the operation and its arguments, the world it leaves is the
    one after a single call. *)
Lemma woo_calls_once (op : Operation) :
  exists method query body,
    snd (woo cfg op w) = after w (request_to cfg method (api_of op) query body).
Proof.
  destruct op; simpl; do 3 eexists; apply sent_bind_ret.
  - now rewrite get_run.
  - unfold createOrder. now rewrite post_json_run.
  - unfold createUser. now rewrite post_json_run.
  - unfold updateOrderInfo. now rewrite updateOrder_run.
  - unfold setOrderPaid. now rewrite updateOrder_run.
  - now rewrite getShippingOptions_run.
Qed.

Lemma woo_request (op : Operation) :
  exists (req : Request) (q : URLSearchParams.t),
    sent (snd (woo cfg op w)) = (sent w ++ [req])%list /\
    url req = endpoint cfg (api_of op) ++ "?" ++ URLSearchParams.toString q /\
    URLSearchParams.parse (URLSearchParams.toString q) = q /\
    named "consumer_key" q = [("consumer_key", Js.opt_toString (CONSUMER_KEY cfg))] /\
    named "consumer_secret" q = [("consumer_secret", Js.opt_toString (CONSUMER_SECRET cfg))].
Proof.
  destruct (woo_calls_once op) as (method & query & body & H).
  exists (request_to cfg method (api_of op) query body), (signed cfg query).
  rewrite H. repeat split.
  - apply QueryFacts.parse_toString.
  - apply signed_key.
  - apply signed_secret.
Qed.

(** A failure of the transport reaches the caller as it is. *)
Lemma transport_failure_propagates (op : Operation) (e : JSError) :
  (forall req, remote w req = Rejected e) -> fst (woo cfg op w) = Rejected e.
Proof.
  intros H. destruct op; simpl; unfold bind.
  - now rewrite get_run, H.
  - unfold createOrder. now rewrite post_json_run, H.
  - unfold createUser. now rewrite post_json_run, H.
  - unfold updateOrderInfo. now rewrite updateOrder_run, H.
  - unfold setOrderPaid. now rewrite updateOrder_run, H.
  - now rewrite getShippingOptions_run, H.
Qed.

End OneRequest.

(** * The claims *)

(** C1, as stated, fails.  The call pastes the endpoint path into the
    address as it is and appends [?] and the query after it (lines 56 and
    61).  With a path that brings a [?] of its own, the query component of
    the address starts there, and the parameter [consumer_secret] is not
    among those it parses to; with a path that holds a [#], the credentials
    fall into the fragment and the address has no query component at
    all. *)
Lemma get_with_a_marked_path_sends_no_secret :
  let w := Sample.answering (mkResponse 200 None) in
  (exists (req : Request) (query_string : string),
      sent (snd (woo Sample.cfg (Get "products?per_page=100" None) w)) = [req] /\
      url req
      = "https:/shop.example//wp-json/wc/v3/products?per_page=100?consumer_secret=cs_live&consumer_key=ck_live" /\
      url_query (url req) = Some query_string /\
      URLSearchParams.parse query_string
      = [("per_page", "100?consumer_secret=cs_live"); ("consumer_key", "ck_live")] /\
      URLSearchParams.get "consumer_secret" (URLSearchParams.parse query_string) = None) /\
  (exists req : Request,
      sent (snd (woo Sample.cfg (Get "products#top" None) w)) = [req] /\
      url req
      = "https:/shop.example//wp-json/wc/v3/products#top?consumer_secret=cs_live&consumer_key=ck_live" /\
      url_query (url req) = None).
Proof.
  intros w. split.
  - eexists. eexists. split; [reflexivity|]. repeat split.
  - eexists. split; [reflexivity|]. split; reflexivity.
Qed.

(** C1, amended.  For every public operation and every configured
    credential triple, the operation sends exactly one request.  The
    address of that request ends with a question mark and the
    serialisation of a parameter list; in that list [consumer_key] and
    [consumer_secret] each occur once, with the configured key and secret
    as their values, and parsing the text gives the list back.  When the
    base URL and the endpoint path hold no [?] and no [#], that text is the
    query component of the address, so the query string of the request
    carries both credentials; the five operations with an endpoint of
    their own always pass such a path.  (For [get] the path is the
    caller's: with a [?] or a [#] in it, nothing is promised.) *)
Theorem every_request_carries_the_credentials
  (base key secret : string) (op : Operation) (w : World) :
  let cfg := mkConfig (Some base) (Some key) (Some secret) in
  exists (req : Request) (q : URLSearchParams.t),
    sent (snd (woo cfg op w)) = (sent w ++ [req])%list /\
    url req = endpoint cfg (api_of op) ++ "?" ++ URLSearchParams.toString q /\
    plain (URLSearchParams.toString q) = true /\
    URLSearchParams.parse (URLSearchParams.toString q) = q /\
    named "consumer_key" q = [("consumer_key", key)] /\
    named "consumer_secret" q = [("consumer_secret", secret)] /\
    URLSearchParams.get "consumer_key" q = Some key /\
    URLSearchParams.get "consumer_secret" q = Some secret /\
    (fixed_endpoint op = true -> plain (api_of op) = true) /\
    (plain base = true -> plain (api_of op) = true ->
     url_query (url req) = Some (URLSearchParams.toString q)).
Proof.
  intros cfg.
  destruct (woo_request cfg w op) as (req & q & Hsent & Hurl & Hparse & Hkey & Hsecret).
  exists req, q. simpl in Hkey, Hsecret.
  repeat split; auto using named_get, toString_plain, fixed_endpoint_plain.
  intros Hbase Hapi. rewrite Hurl.
  apply url_query_append.
  - now apply endpoint_plain.
  - pose proof (toString_plain q) as H. unfold plain in H.
    now apply andb_true_iff in H.
Qed.

Lemma every_request_carries_the_credentials_witness :
  exists (req : Request) (q : URLSearchParams.t),
    sent (snd (woo Sample.cfg (SetOrderPaid 42) (Sample.answering (mkResponse 200 None))))
    = [req] /\
    url_query (url req) = Some (URLSearchParams.toString q) /\
    URLSearchParams.get "consumer_key" q = Some "ck_live" /\
    URLSearchParams.get "consumer_secret" q = Some "cs_live".
Proof.
  destruct (every_request_carries_the_credentials
              "https://shop.example/" "ck_live" "cs_live" (SetOrderPaid 42)
              (Sample.answering (mkResponse 200 None)))
    as (req & q & Hsent & _ & _ & _ & _ & _ & Hkey & Hsecret & Hfixed & Hquery).
  exists req, q. split; [exact Hsent|]. split; [|split; assumption].
  apply Hquery; [reflexivity | apply Hfixed; reflexivity].
Defined.


(** C5. For every list of line items and every note, [createOrder] sends
    exactly one request: a POST to the [orders] endpoint whose body is the
    JSON text of [{set_paid: false, line_items, customer_note}]; when the
    remote store answers with a body that parses to [v], the operation
    returns [v] itself. *)
Theorem createOrder_posts_the_order
  (cfg : Config) (line_items : list JSValue) (note : string) (w : World) :
  let payload := JObj [("set_paid", JBool false);
                       ("line_items", JArr line_items);
                       ("customer_note", JStr note)] in
  exists (req : Request) (text : string),
    sent (snd (createOrder cfg line_items note w)) = (sent w ++ [req])%list /\
    method req = "POST" /\
    url req = endpoint cfg "orders" ++ "?" ++ URLSearchParams.toString (signed cfg None) /\
    JSON.stringify payload = Some text /\
    body req = JStr text /\
    (forall res v,
        remote w req = Resolved res -> json_body res = Some v ->
        fst (createOrder cfg line_items note w) = Resolved v).
Proof.
  intros payload.
  exists (request_to cfg "POST" "orders" None payload).
  eexists. unfold createOrder. fold payload. rewrite post_json_run.
  repeat split.
  intros res v Hres Hv. simpl. rewrite Hres. simpl. now rewrite Hv.
Qed.

Lemma createOrder_posts_the_order_witness :
  fst (createOrder Sample.cfg Sample.items "note"
         (Sample.answering (mkResponse 201 (Some (JObj [("id", JNum 727)])))))
  = Resolved (JObj [("id", JNum 727)]).
Proof.
  destruct (createOrder_posts_the_order Sample.cfg Sample.items "note"
              (Sample.answering (mkResponse 201 (Some (JObj [("id", JNum 727)])))))
    as (req & text & _ & _ & _ & _ & _ & H).
  apply (H (mkResponse 201 (Some (JObj [("id", JNum 727)])))); reflexivity.
Defined.

(** C8. For every integer order id, [setOrderPaid] sends exactly one
    request, a PUT to [orders/{orderId}] whose body is the JSON text of
    [{set_paid: true}], and returns what [fetch] settles with, unparsed;
    for the id 42 the endpoint is [orders/42]. *)
Theorem setOrderPaid_puts_set_paid (cfg : Config) (orderId : Z) (w : World) :
  exists req : Request,
    setOrderPaid cfg orderId w = (remote w req, after w req) /\
    sent (after w req) = (sent w ++ [req])%list /\
    method req = "PUT" /\
    url req = endpoint cfg ("orders/" ++ Js.Number_toString orderId)
              ++ "?" ++ URLSearchParams.toString (signed cfg None) /\
    JSON.stringify (JObj [("set_paid", JBool true)])
    = Some ("{" ++ JSON.quote "set_paid" ++ ":true}") /\
    body req = JStr ("{" ++ JSON.quote "set_paid" ++ ":true}") /\
    "orders/" ++ Js.Number_toString 42 = "orders/42".
Proof.
  exists (request_to cfg "PUT" ("orders/" ++ Js.Number_toString orderId) None
            (JObj [("set_paid", JBool true)])).
  repeat split.
Qed.

(** C7, as stated, fails: the two sub-objects are not mapped alike.  The
    [billing] object has an [email] and a [phone] property, and the
    [shipping] object has neither. *)
Lemma billing_holds_what_shipping_lacks :
  let shipping := [("first_name", JStr "Alice"); ("last_name", JStr "Alice");
                   ("address_1", JStr "Unter den Linden 1");
                   ("address_2", JStr "c/o Bob");
                   ("city", JStr "Berlin"); ("state", JStr "BE");
                   ("postcode", JStr "10117"); ("country", JStr "DE")] in
  let billing := [("first_name", JStr "Alice"); ("last_name", JStr "Alice");
                  ("email", JStr "alice@shop.example");
                  ("phone", JStr "+49 30 1234");
                  ("address_1", JStr "Unter den Linden 1");
                  ("address_2", JStr "c/o Bob");
                  ("city", JStr "Berlin"); ("state", JStr "BE");
                  ("postcode", JStr "10117"); ("country", JStr "DE")] in
  sent (snd (updateOrderInfo Sample.cfg 7 Sample.alice
               (Sample.answering (mkResponse 200 None))))
  = [request_to Sample.cfg "PUT" "orders/7" None
       (JObj [("shipping", JObj shipping); ("billing", JObj billing)])] /\
  shipping <> billing /\
  Js.lookup "email" shipping = None /\
  Js.lookup "email" billing = Some (JStr "alice@shop.example") /\
  Js.lookup "phone" shipping = None /\
  Js.lookup "phone" billing = Some (JStr "+49 30 1234").
Proof.
  intros shipping billing. split; [reflexivity|].
  split; [discriminate|]. repeat split.
Qed.

(** C7, amended.  For every order information, [updateOrderInfo] sends a
    PUT whose payload has a [shipping] and a [billing] object, and
    [createUser] sends a POST whose payload has the same two objects after
    [email], [first_name], [last_name] and [username].  In both objects
    [first_name] and [last_name] are the [name] field; [billing] is
    [shipping] with [email] and [phone] added, so the properties the two
    share are mapped alike; and at the top level of the user payload
    [first_name], [last_name] and [username] are the name too. *)
Theorem name_fills_first_and_last_name
  (cfg : Config) (orderId : Z) (o : OrderInfo) (w : World) :
  let n := Js.js_of_opt (name o) in
  exists shipping billing top : list (string * JSValue),
    sent (snd (updateOrderInfo cfg orderId o w))
    = (sent w ++ [request_to cfg "PUT" ("orders/" ++ Js.Number_toString orderId) None
                    (JObj [("shipping", JObj shipping); ("billing", JObj billing)])])%list /\
    sent (snd (createUser cfg o w))
    = (sent w ++ [request_to cfg "POST" "customers" None
                    (JObj (top ++ [("shipping", JObj shipping);
                                   ("billing", JObj billing)])%list)])%list /\
    Js.lookup "first_name" shipping = Some n /\
    Js.lookup "last_name" shipping = Some n /\
    Js.lookup "first_name" billing = Some n /\
    Js.lookup "last_name" billing = Some n /\
    without ["email"; "phone"] billing = shipping /\
    Js.lookup "email" billing = Some (Js.js_of_opt (email o)) /\
    Js.lookup "phone" billing = Some (Js.js_of_opt (phone_number o)) /\
    Js.lookup "first_name" top = Some n /\
    Js.lookup "last_name" top = Some n /\
    Js.lookup "username" top = Some n.
Proof.
  intros n.
  exists [("first_name", n); ("last_name", n);
          ("address_1", address_field o street_line1);
          ("address_2", address_field o street_line2);
          ("city", address_field o city);
          ("state", address_field o state);
          ("postcode", address_field o post_code);
          ("country", address_field o country_code)].
  exists [("first_name", n); ("last_name", n);
          ("email", Js.js_of_opt (email o));
          ("phone", Js.js_of_opt (phone_number o));
          ("address_1", address_field o street_line1);
          ("address_2", address_field o street_line2);
          ("city", address_field o city);
          ("state", address_field o state);
          ("postcode", address_field o post_code);
          ("country", address_field o country_code)].
  exists [("email", Js.js_of_opt (email o)); ("first_name", n); ("last_name", n);
          ("username", n)].
  split; [|split].
  - unfold updateOrderInfo. now rewrite updateOrder_run.
  - unfold createUser. now rewrite post_json_run.
  - repeat split.
Qed.

(** C3. The cleanup of line 56 replaces the first doubled slash of the
    whole address.  For a base URL with a scheme, [scheme//host/], that is
    the doubled slash after the scheme: the address becomes
    [scheme/host//wp-json/wc/v3/...], with the doubled slash between the
    base and the API prefix still there. *)
Theorem replace_hits_the_scheme_separator
  (scheme host api : string) (key secret : option string) :
  includes "//" (scheme ++ "/") = false ->
  endpoint (mkConfig (Some (scheme ++ "//" ++ host ++ "/")) key secret) api
  = scheme ++ "/" ++ host ++ "//wp-json/wc/v3/" ++ api.
Proof.
  intros H.
  assert (E : (scheme ++ "//" ++ host ++ "/") ++ "/wp-json/wc/v3/" ++ api
              = scheme ++ "//" ++ (host ++ "//wp-json/wc/v3/" ++ api)).
  { rewrite append_assoc. f_equal. simpl. now rewrite append_assoc. }
  unfold endpoint. cbn [Js.opt_toString WOOCOMMERCE_URL]. rewrite E.
  apply (replace_first_double_slash scheme _ H).
Qed.

Lemma replace_hits_the_scheme_separator_witness :
  endpoint Sample.cfg "orders" = "https:/shop.example//wp-json/wc/v3/orders".
Proof.
  apply (replace_hits_the_scheme_separator "https:" "shop.example" "orders"). reflexivity.
Defined.

(** Where the base has no doubled slash of its own, the cleanup removes
    the one that the concatenation brings in. *)
Lemma endpoint_of_plain_base (b api : string) (key secret : option string) :
  includes "//" (b ++ "/") = false ->
  endpoint (mkConfig (Some (b ++ "/")) key secret) api = b ++ "/wp-json/wc/v3/" ++ api.
Proof.
  intros H. unfold endpoint. cbn [Js.opt_toString WOOCOMMERCE_URL].
  rewrite append_assoc.
  apply (replace_first_double_slash b ("wp-json/wc/v3/" ++ api) H).
Qed.

(** C4, as stated, fails: with none of the three variables set, the
    evaluation of the module completes. *)
Lemma load_completes_without_credentials :
  load (fun _ => None) = Resolved (mkConfig None None None) /\
  ~ (exists e, load (fun _ => None) = Rejected e).
Proof. split; [reflexivity | intros [e H]; discriminate]. Qed.

(** C4, amended.  Startup never fails: the three values are read from the
    environment without a check, and an absent one is left undefined.
    Every operation then still sends its request, with the text
    [undefined] where the value is missing.  With all three present,
    startup succeeds with the three values. *)
Theorem load_reads_without_check (env : Env) :
  let cfg := mkConfig (env "WOOCOMMERCE_URL") (env "WOOCOMMERCE_CONSUMER_KEY")
               (env "WOOCOMMERCE_CONSUMER_SECRET") in
  load env = Resolved cfg /\
  (forall op w, exists req q,
      sent (snd (woo cfg op w)) = (sent w ++ [req])%list /\
      url req = endpoint cfg (api_of op) ++ "?" ++ URLSearchParams.toString q /\
      named "consumer_key" q
      = [("consumer_key", Js.opt_toString (env "WOOCOMMERCE_CONSUMER_KEY"))] /\
      named "consumer_secret" q
      = [("consumer_secret", Js.opt_toString (env "WOOCOMMERCE_CONSUMER_SECRET"))]) /\
  (env "WOOCOMMERCE_CONSUMER_KEY" = None ->
   Js.opt_toString (env "WOOCOMMERCE_CONSUMER_KEY") = "undefined") /\
  (forall u k s,
      env "WOOCOMMERCE_URL" = Some u ->
      env "WOOCOMMERCE_CONSUMER_KEY" = Some k ->
      env "WOOCOMMERCE_CONSUMER_SECRET" = Some s ->
      load env = Resolved (mkConfig (Some u) (Some k) (Some s))).
Proof.
  intros cfg. split; [reflexivity|]. split; [|split].
  - intros op w.
    destruct (woo_request cfg w op) as (req & q & H1 & H2 & _ & H3 & H4).
    now exists req, q.
  - now intros ->.
  - intros u k s Hu Hk Hs. unfold load, non_null_assertion. now rewrite Hu, Hk, Hs.
Qed.

Lemma load_reads_without_check_witness :
  load (fun k => if k =? "WOOCOMMERCE_URL" then Some "https://shop.example"
                 else if k =? "WOOCOMMERCE_CONSUMER_KEY" then Some "ck_live"
                 else if k =? "WOOCOMMERCE_CONSUMER_SECRET" then Some "cs_live"
                 else None)
  = Resolved (mkConfig (Some "https://shop.example") (Some "ck_live") (Some "cs_live")).
Proof.
  destruct (load_reads_without_check
              (fun k => if k =? "WOOCOMMERCE_URL" then Some "https://shop.example"
                        else if k =? "WOOCOMMERCE_CONSUMER_KEY" then Some "ck_live"
                        else if k =? "WOOCOMMERCE_CONSUMER_SECRET" then Some "cs_live"
                        else None)) as (_ & _ & _ & H).
  apply H; reflexivity.
Defined.

(** C2, as stated, fails: the remote store answers an unknown route with
    status 404 and a JSON error object; [getShippingOptions] parses it and
    then throws a [TypeError], which is neither a resolved value nor a
    parsing failure. *)
Lemma getShippingOptions_rejects_an_error_object :
  let res := mkResponse 404 (Some Sample.route_error) in
  json_body res = Some Sample.route_error /\
  fst (getShippingOptions Sample.cfg 5 (Sample.answering res)) = Rejected TypeError /\
  ~ (exists v, fst (getShippingOptions Sample.cfg 5 (Sample.answering res)) = Resolved v).
Proof.
  split; [reflexivity|]. split; [reflexivity|].
  intros [v H]. discriminate.
Qed.

(** C2, amended.  None of the three operations looks at the status.
    [createOrder] and [createUser] return the parsed body of a response of
    any status as a resolved value.  [getShippingOptions] returns the
    options of a parsed array without null entries, and throws a [TypeError]
    on any other parsed body (an error object, say) and on an array with a
    null entry.  A body that is not valid JSON makes each of the three
    throw the parser's [SyntaxError].  In every case one request has been
    sent and nothing else is tried. *)
Theorem parsed_body_is_returned_whatever_the_status
  (cfg : Config) (w : World) (res : Response) :
  (forall req, remote w req = Resolved res) ->
  (forall line_items note,
      fst (createOrder cfg line_items note w)
      = match json_body res with
        | Some v => Resolved v
        | None => Rejected SyntaxError
        end /\
      exists req, sent (snd (createOrder cfg line_items note w)) = (sent w ++ [req])%list) /\
  (forall orderInfo,
      fst (createUser cfg orderInfo w)
      = match json_body res with
        | Some v => Resolved v
        | None => Rejected SyntaxError
        end /\
      exists req, sent (snd (createUser cfg orderInfo w)) = (sent w ++ [req])%list) /\
  (forall zoneId,
      fst (getShippingOptions cfg zoneId w)
      = match json_body res with
        | Some (JArr items) =>
            if existsb nullish items then Rejected TypeError
            else Resolved (JArr (List.map projection (List.filter is_enabled items)))
        | Some _ => Rejected TypeError
        | None => Rejected SyntaxError
        end /\
      exists req, sent (snd (getShippingOptions cfg zoneId w)) = (sent w ++ [req])%list).
Proof.
  intros Hres. split; [|split].
  - intros line_items note. unfold createOrder. rewrite post_json_run, Hres.
    split; [reflexivity | now eexists].
  - intros orderInfo. unfold createUser. rewrite post_json_run, Hres.
    split; [reflexivity | now eexists].
  - intros zoneId. rewrite getShippingOptions_run, Hres.
    split; [|now eexists].
    simpl. destruct (json_body res) as [v|]; [|reflexivity].
    simpl. rewrite select_shipping_options_eq. now destruct v.
Qed.

Lemma parsed_body_is_returned_whatever_the_status_witness :
  fst (createOrder Sample.cfg Sample.items "note"
         (Sample.answering (mkResponse 404 (Some Sample.route_error))))
  = Resolved Sample.route_error.
Proof.
  destruct (parsed_body_is_returned_whatever_the_status Sample.cfg
              (Sample.answering (mkResponse 404 (Some Sample.route_error)))
              (mkResponse 404 (Some Sample.route_error))
              (fun _ => eq_refl)) as (H & _ & _).
  apply (H Sample.items "note").
Defined.

(** C6, as stated, fails: an entry whose [enabled] is the string [no] has
    a flag that is not [true], and it is returned. *)
Lemma getShippingOptions_keeps_a_truthy_flag :
  let methods := [JObj [("method_id", JStr "pickup"); ("enabled", JStr "no")]] in
  spec_options methods = [] /\
  fst (getShippingOptions Sample.cfg 5
         (Sample.answering (mkResponse 200 (Some (JArr methods)))))
  = Resolved (JArr [JObj [("id", JStr "pickup"); ("title", JUndefined);
                          ("prices", JArr [JObj [("label", JStr "Free");
                                                 ("amount", JNum 0)]])]]) /\
  fst (getShippingOptions Sample.cfg 5
         (Sample.answering (mkResponse 200 (Some (JArr methods)))))
  <> Resolved (JArr (spec_options methods)).
Proof.
  split; [reflexivity|]. split; [reflexivity|]. discriminate.
Qed.

(** C6, amended.  For every zone id and every JSON array without null
    entries that [GET shipping/zones/{zoneId}/methods] answers with,
    [getShippingOptions] returns exactly the entries whose [enabled] value
    is truthy, each projected to [{id: method_id, title: method_title,
    prices: [{label: "Free", amount: 0}]}], and no other entry.  An entry
    whose flag is [true] is truthy; where every [enabled] is a boolean or
    missing, the truthy entries are exactly those whose flag is [true]. *)
Theorem getShippingOptions_returns_the_truthy_entries
  (cfg : Config) (zoneId : Z) (w : World) (res : Response) (methods : list JSValue) :
  let req := request_to cfg "GET"
               ("shipping/zones/" ++ Js.Number_toString zoneId ++ "/methods")
               None JUndefined in
  remote w req = Resolved res ->
  json_body res = Some (JArr methods) ->
  existsb nullish methods = false ->
  sent (snd (getShippingOptions cfg zoneId w)) = (sent w ++ [req])%list /\
  method req = "GET" /\
  fst (getShippingOptions cfg zoneId w)
  = Resolved (JArr (List.map projection (List.filter is_enabled methods))) /\
  (forall x, flag_is_true x = true -> is_enabled x = true) /\
  (forallb boolean_flag methods = true ->
   fst (getShippingOptions cfg zoneId w) = Resolved (JArr (spec_options methods))).
Proof.
  intros req Hres Hbody Hnull.
  rewrite getShippingOptions_run. fold req. rewrite Hres. simpl. rewrite Hbody. simpl.
  rewrite select_shipping_options_eq, Hnull.
  repeat split.
  - intros x. unfold flag_is_true, is_enabled.
    now destruct (field x "enabled") as [| |[]| | | |].
  - intros Hflags. unfold spec_options. now rewrite filter_boolean_flags.
Qed.

Lemma getShippingOptions_returns_the_truthy_entries_witness :
  fst (getShippingOptions Sample.cfg 5
         (Sample.answering
            (mkResponse 200 (Some (JArr [Sample.flat_rate; Sample.disabled])))))
  = Resolved (JArr [JObj [("id", JStr "flat"); ("title", JStr "Flat Rate");
                          ("prices", JArr [JObj [("label", JStr "Free");
                                                 ("amount", JNum 0)]])]]).
Proof.
  destruct (getShippingOptions_returns_the_truthy_entries Sample.cfg 5
              (Sample.answering
                 (mkResponse 200 (Some (JArr [Sample.flat_rate; Sample.disabled]))))
              (mkResponse 200 (Some (JArr [Sample.flat_rate; Sample.disabled])))
              [Sample.flat_rate; Sample.disabled]
              eq_refl eq_refl eq_refl) as (_ & _ & H & _).
  exact H.
Defined.

(** C10, as stated, fails: with an [enabled] of 1 the returned list has
    one option, and no entry has a flag that is [true]. *)
Lemma getShippingOptions_counts_truthy_flags :
  let methods := [JObj [("method_id", JStr "flat"); ("enabled", JNum 1)]] in
  List.length (List.filter flag_is_true methods) = 0 /\
  exists options,
    fst (getShippingOptions Sample.cfg 5
           (Sample.answering (mkResponse 200 (Some (JArr methods)))))
    = Resolved (JArr options) /\
    List.length options = 1.
Proof.
  split; [reflexivity|]. eexists. split; reflexivity.
Qed.

(** C10, amended.  For every remote array without null entries, the list
    that [getShippingOptions] returns is made, in their order, of the
    projections of the entries whose [enabled] value is truthy: these
    entries are the array with the others left out, the length of the list
    is their number, and it is at most the length of the array. *)
Theorem getShippingOptions_keeps_the_order
  (cfg : Config) (zoneId : Z) (w : World) (res : Response) (methods : list JSValue) :
  let req := request_to cfg "GET"
               ("shipping/zones/" ++ Js.Number_toString zoneId ++ "/methods")
               None JUndefined in
  remote w req = Resolved res ->
  json_body res = Some (JArr methods) ->
  existsb nullish methods = false ->
  exists kept : list JSValue,
    fst (getShippingOptions cfg zoneId w) = Resolved (JArr (List.map projection kept)) /\
    Subseq kept methods /\
    (forall x, In x kept <-> In x methods /\ is_enabled x = true) /\
    List.length (List.map projection kept) = List.length (List.filter is_enabled methods) /\
    List.length (List.map projection kept) <= List.length methods.
Proof.
  intros req Hres Hbody Hnull.
  exists (List.filter is_enabled methods).
  rewrite getShippingOptions_run. fold req. rewrite Hres. simpl. rewrite Hbody. simpl.
  rewrite select_shipping_options_eq, Hnull.
  split; [reflexivity|]. split; [apply filter_Subseq|].
  split; [intros x; apply filter_In|].
  rewrite length_map. split; [reflexivity | apply filter_length_le].
Qed.

Lemma getShippingOptions_keeps_the_order_witness :
  exists kept,
    fst (getShippingOptions Sample.cfg 5
           (Sample.answering
              (mkResponse 200
                 (Some (JArr [Sample.disabled; Sample.flat_rate; Sample.disabled])))))
    = Resolved (JArr (List.map projection kept)) /\
    Subseq kept [Sample.disabled; Sample.flat_rate; Sample.disabled].
Proof.
  destruct (getShippingOptions_keeps_the_order Sample.cfg 5
              (Sample.answering
                 (mkResponse 200
                    (Some (JArr [Sample.disabled; Sample.flat_rate; Sample.disabled]))))
              (mkResponse 200
                 (Some (JArr [Sample.disabled; Sample.flat_rate; Sample.disabled])))
              [Sample.disabled; Sample.flat_rate; Sample.disabled]
              eq_refl eq_refl eq_refl) as (kept & H1 & H2 & _).
  exists kept. split; assumption.
Defined.


(** * Further properties of the module *)

(** ** The shape of every operation: one call, then a pure step *)
Section Shape.

Variable cfg : Config.

(** Each exported operation hands one request to [fetch] and settles with
    a function of the response alone. *)
Lemma woo_shape (op : Operation) :
  exists body : JSValue,
    (forall w,
        woo cfg op w
        = (res <~ remote w (request_to cfg (method_of op) (api_of op) (query_of op) body) ;;
           settle op res,
           after w (request_to cfg (method_of op) (api_of op) (query_of op) body))) /\
    (method_of op = "GET" /\ body = JUndefined \/
     method_of op <> "GET" /\ exists props, body = JObj props).
Proof.
  destruct op; cbn [method_of api_of query_of woo];
    unfold createOrder, createUser, updateOrderInfo, setOrderPaid.
  - exists JUndefined. split; [|now left].
    intros w. unfold bind. rewrite get_run. now destruct (remote w _).
  - match goal with |- context [post cfg _ ?b None] => exists b end.
    split; [|right; split; [discriminate | now eexists]].
    intros w. unfold bind at 1. rewrite post_json_run.
    destruct (remote w _) as [res|e]; [|reflexivity].
    simpl. now destruct (json_body res).
  - match goal with |- context [post cfg _ ?b None] => exists b end.
    split; [|right; split; [discriminate | now eexists]].
    intros w. unfold bind at 1. rewrite post_json_run.
    destruct (remote w _) as [res|e]; [|reflexivity].
    simpl. now destruct (json_body res).
  - match goal with |- context [updateOrder cfg _ ?b] => exists b end.
    split; [|right; split; [discriminate | now eexists]].
    intros w. unfold bind. rewrite updateOrder_run. now destruct (remote w _).
  - match goal with |- context [updateOrder cfg _ ?b] => exists b end.
    split; [|right; split; [discriminate | now eexists]].
    intros w. unfold bind. rewrite updateOrder_run. now destruct (remote w _).
  - exists JUndefined. split; [|now left].
    intros w. unfold bind. rewrite getShippingOptions_run.
    destruct (remote w _) as [res|e]; [|reflexivity].
    simpl. destruct (json_body res) as [v|]; [|reflexivity].
    simpl. now destruct (select_shipping_options v).
Qed.

End Shape.

(** ** Where a pair stands in the serialised query *)
Section OccursFacts.
Import URLSearchParams.

Lemma occurs_refl (t : string) : occurs t t.
Proof. exists EmptyString, EmptyString. simpl. now rewrite append_nil_r. Qed.

Lemma occurs_append_l (t s pre : string) : occurs t s -> occurs t (pre ++ s).
Proof.
  intros (a & b & ->). exists (pre ++ a), b. now rewrite append_assoc.
Qed.

Lemma occurs_append_r (t s post : string) : occurs t s -> occurs t (s ++ post).
Proof.
  intros (a & b & ->). exists a, (b ++ post). now rewrite !append_assoc.
Qed.

Lemma toString_cons (p : string * string) (q : t) :
  q <> [] -> toString (p :: q) = encode_pair p ++ "&" ++ toString q.
Proof. destruct q; [congruence | reflexivity]. Qed.

(** A pair of the list is written out, name and value, in the text. *)
Lemma toString_occurs (p : string * string) (q : t) :
  In p q -> occurs (encode_pair p) (toString q).
Proof.
  induction q as [|x q IH]; [contradiction|].
  intros [->|Hin].
  - destruct q as [|y q]; [apply occurs_refl|].
    rewrite toString_cons by discriminate.
    apply occurs_append_r, occurs_refl.
  - destruct q as [|y q]; [contradiction|].
    rewrite toString_cons by discriminate.
    now apply occurs_append_l, occurs_append_l, IH.
Qed.

Lemma named_In (name value : string) (q : t) :
  named name q = [(name, value)] -> In (name, value) q.
Proof.
  intros H.
  assert (Hin : In (name, value) (named name q)) by (rewrite H; now left).
  unfold named in Hin. now apply filter_In in Hin.
Qed.

End OccursFacts.

(** X1. A failure of the transport is not handled: whatever the operation,
    when [fetch] rejects the one request sent, the operation rejects with
    the same error, and no second request is made. *)
Theorem transport_failure_reaches_the_caller
  (cfg : Config) (op : Operation) (w : World) :
  exists req : Request,
    sent (snd (woo cfg op w)) = (sent w ++ [req])%list /\
    forall e, remote w req = Rejected e -> fst (woo cfg op w) = Rejected e.
Proof.
  destruct (woo_shape cfg op) as (body & Hrun & _).
  exists (request_to cfg (method_of op) (api_of op) (query_of op) body).
  rewrite Hrun. split; [reflexivity|].
  intros e He. simpl. now rewrite He.
Qed.

Lemma transport_failure_reaches_the_caller_witness :
  fst (woo Sample.cfg (CreateOrder Sample.items "note")
         (mkWorld (fun _ => Rejected (NetworkError "ECONNREFUSED")) [] []))
  = Rejected (NetworkError "ECONNREFUSED").
Proof.
  destruct (transport_failure_reaches_the_caller Sample.cfg
              (CreateOrder Sample.items "note")
              (mkWorld (fun _ => Rejected (NetworkError "ECONNREFUSED")) [] []))
    as (req & _ & H).
  apply H. reflexivity.
Defined.

(** X2. Every operation writes exactly one line to the console before it
    sends: [Proxy woo: ], the full address of the request, [ | ] and the
    JSON text of the [init] object.  With configured credentials the line
    therefore holds the key and the secret, as they are written in the
    query string. *)
Theorem every_request_is_logged_with_the_credentials
  (base key secret : string) (op : Operation) (w : World) :
  let cfg := mkConfig (Some base) (Some key) (Some secret) in
  exists (req : Request) (init_text line : string),
    sent (snd (woo cfg op w)) = (sent w ++ [req])%list /\
    console (snd (woo cfg op w)) = (console w ++ [line])%list /\
    JSON.stringify (init_value req) = Some init_text /\
    line = "Proxy woo: " ++ url req ++ " | " ++ init_text /\
    occurs ("consumer_secret=" ++ URLSearchParams.encode secret) line /\
    occurs ("consumer_key=" ++ URLSearchParams.encode key) line.
Proof.
  intros cfg.
  destruct (woo_shape cfg op) as (body & Hrun & _).
  set (req := request_to cfg (method_of op) (api_of op) (query_of op) body) in *.
  exists req. eexists. eexists. rewrite Hrun.
  split; [reflexivity|]. split; [reflexivity|]. split; [reflexivity|].
  split; [reflexivity|].
  assert (Hurl : forall p, In p (signed cfg (query_of op)) ->
                           occurs (URLSearchParams.encode_pair p) (url req)).
  { intros p Hp. unfold req, request_to. cbn [url].
    apply occurs_append_l, occurs_append_l. now apply toString_occurs. }
  split.
  - apply occurs_append_l, occurs_append_r.
    apply (Hurl ("consumer_secret", secret)), named_In, (signed_secret cfg).
  - apply occurs_append_l, occurs_append_r.
    apply (Hurl ("consumer_key", key)), named_In, (signed_key cfg).
Qed.

(** X4. Every request carries the single header [Content-Type:
    application/json], the bodyless GET requests too.  A GET request has
    no body; a POST or PUT request has the JSON text of an object as its
    body. *)
Theorem every_request_has_the_json_header (cfg : Config) (op : Operation) (w : World) :
  exists req : Request,
    sent (snd (woo cfg op w)) = (sent w ++ [req])%list /\
    headers req = [("Content-Type", "application/json")] /\
    method req = method_of op /\
    (method_of op = "GET" -> body req = JUndefined) /\
    (method_of op <> "GET" ->
     exists props text,
       JSON.stringify (JObj props) = Some text /\ body req = JStr text).
Proof.
  destruct (woo_shape cfg op) as (body & Hrun & Hbody).
  exists (request_to cfg (method_of op) (api_of op) (query_of op) body).
  rewrite Hrun. repeat split.
  - intros Hget. destruct Hbody as [[_ ->]|[Hne _]]; [reflexivity | contradiction].
  - intros Hne. destruct Hbody as [[Hget _]|[_ [props ->]]]; [contradiction|].
    exists props. eexists. split; reflexivity.
Qed.

Lemma every_request_has_the_json_header_witness :
  exists req : Request,
    sent (snd (woo Sample.cfg (GetShippingOptions 5)
                 (Sample.answering (mkResponse 200 None)))) = [req] /\
    headers req = [("Content-Type", "application/json")] /\
    body req = JUndefined.
Proof.
  destruct (every_request_has_the_json_header Sample.cfg (GetShippingOptions 5)
              (Sample.answering (mkResponse 200 None)))
    as (req & Hsent & Hheaders & _ & Hget & _).
  exists req. split; [exact Hsent|]. split; [exact Hheaders|].
  apply Hget. reflexivity.
Defined.

(** X5. [get], [updateOrderInfo] and [setOrderPaid] never read the
    response: whatever its status, and whether or not its body is valid
    JSON, they resolve with the response itself. *)
Theorem raw_operations_never_read_the_response
  (cfg : Config) (op : Operation) (w : World) :
  returns_raw op = true ->
  exists req : Request,
    sent (snd (woo cfg op w)) = (sent w ++ [req])%list /\
    forall res, remote w req = Resolved res -> fst (woo cfg op w) = Resolved (Raw res).
Proof.
  intros Hraw.
  destruct (woo_shape cfg op) as (body & Hrun & _).
  exists (request_to cfg (method_of op) (api_of op) (query_of op) body).
  rewrite Hrun. split; [reflexivity|].
  intros res Hres. simpl. rewrite Hres.
  destruct op; try discriminate; reflexivity.
Qed.

Lemma raw_operations_never_read_the_response_witness :
  fst (woo Sample.cfg (UpdateOrderInfo 7 Sample.alice)
         (Sample.answering (mkResponse 500 None)))
  = Resolved (Raw (mkResponse 500 None)).
Proof.
  destruct (raw_operations_never_read_the_response Sample.cfg
              (UpdateOrderInfo 7 Sample.alice)
              (Sample.answering (mkResponse 500 None)) eq_refl) as (req & _ & H).
  apply H. reflexivity.
Defined.

(** ** Where [set] puts a pair *)
Section SetPlaceFacts.
Import URLSearchParams.

Lemma named_nil_remove name q : named name q = [] -> remove name q = q.
Proof.
  unfold named, remove. induction q as [|[n v] q IH]; simpl; [reflexivity|].
  destruct (n =? name); simpl; [discriminate|].
  intros H. now rewrite IH.
Qed.

(** With no pair of the name, the new pair goes to the end. *)
Lemma set_absent name value q :
  named name q = [] -> set name value q = (q ++ [(name, value)])%list.
Proof.
  unfold named. induction q as [|[n v] q IH]; simpl; [reflexivity|].
  destruct (n =? name); simpl; [discriminate|].
  intros H. now rewrite IH.
Qed.

(** With the pair already there, once and with the value, nothing moves. *)
Lemma set_present name value q :
  named name q = [(name, value)] -> set name value q = q.
Proof.
  induction q as [|[n v] q IH]; [discriminate|].
  unfold named. simpl. destruct (n =? name) eqn:E; simpl.
  - intros H. injection H as Hn Hv Hrest. subst.
    now rewrite (named_nil_remove _ _ Hrest).
  - intros H. f_equal. now apply IH.
Qed.

Lemma named_app name (q1 q2 : t) :
  named name (q1 ++ q2)%list = (named name q1 ++ named name q2)%list.
Proof. apply filter_app. Qed.

Lemma signed_fresh (cfg : Config) (query : t) :
  named "consumer_secret" query = [] ->
  named "consumer_key" query = [] ->
  signed cfg (Some query)
  = (query ++ [("consumer_secret", Js.opt_toString (CONSUMER_SECRET cfg));
               ("consumer_key", Js.opt_toString (CONSUMER_KEY cfg))])%list.
Proof.
  intros Hs Hk. unfold signed.
  rewrite (set_absent "consumer_secret" _ query Hs).
  rewrite set_absent by (now rewrite named_app, Hk).
  now rewrite <- app_assoc.
Qed.

Lemma signed_again (cfg : Config) (query : option t) :
  signed cfg (Some (signed cfg query)) = signed cfg query.
Proof.
  unfold signed at 1.
  rewrite (set_present "consumer_secret" (Js.opt_toString (CONSUMER_SECRET cfg)))
    by apply signed_secret.
  apply set_present, signed_key.
Qed.

End SetPlaceFacts.

(** ** The characters of the serialised query *)
Section CharFacts.
Import URLSearchParams.







End CharFacts.

(** X6. When the caller's query names neither credential, the request
    carries the caller's pairs first, in their order, then
    [consumer_secret], then [consumer_key]. *)
Theorem credentials_follow_the_caller_pairs
  (cfg : Config) (api : string) (query : URLSearchParams.t) (w : World) :
  named "consumer_secret" query = [] ->
  named "consumer_key" query = [] ->
  exists req : Request,
    get cfg api (Some query) w = (remote w req, after w req) /\
    url req
    = endpoint cfg api ++ "?"
      ++ URLSearchParams.toString
           (query ++ [("consumer_secret", Js.opt_toString (CONSUMER_SECRET cfg));
                      ("consumer_key", Js.opt_toString (CONSUMER_KEY cfg))])%list.
Proof.
  intros Hs Hk.
  exists (request_to cfg "GET" api (Some query) JUndefined).
  split; [apply get_run|].
  unfold request_to. cbn [url]. now rewrite signed_fresh.
Qed.

Lemma credentials_follow_the_caller_pairs_witness :
  exists req : Request,
    get Sample.cfg "products" (Some [("page", "2"); ("search", "tea & milk")])
      (Sample.answering (mkResponse 200 None))
    = (Resolved (mkResponse 200 None),
       after (Sample.answering (mkResponse 200 None)) req) /\
    url req
    = "https:/shop.example//wp-json/wc/v3/products?page=2&search=tea+%26+milk&consumer_secret=cs_live&consumer_key=ck_live".
Proof.
  destruct (credentials_follow_the_caller_pairs Sample.cfg "products"
              [("page", "2"); ("search", "tea & milk")]
              (Sample.answering (mkResponse 200 None)) eq_refl eq_refl)
    as (req & Hrun & Hurl).
  exists req. split; [exact Hrun | exact Hurl].
Defined.

(** X7. The call writes the credentials into the query it is given.  A
    caller that passes a query which already went through a call (the
    source updates the caller's object in place) sends the same request
    again: the credentials are not added a second time and no pair
    moves. *)
Theorem a_signed_query_is_sent_unchanged
  (cfg : Config) (api : string) (query : option URLSearchParams.t) (w : World) :
  signed cfg (Some (signed cfg query)) = signed cfg query /\
  get cfg api (Some (signed cfg query)) w = get cfg api query w.
Proof.
  split; [apply signed_again|].
  rewrite !get_run. unfold request_to. now rewrite signed_again.
Qed.




(** ** More on [String.replace] *)
Section ReplaceMoreFacts.

Lemma prefix_exists (p s : string) : prefix p s = true -> exists rest, s = p ++ rest.
Proof.
  revert p. induction s as [|b s IH]; intros [|a p] H; cbn [prefix] in H.
  - now exists EmptyString.
  - discriminate.
  - now exists (String b s).
  - destruct (ascii_dec a b) as [->|]; [|discriminate].
    destruct (IH p H) as [rest ->]. now exists rest.
Qed.

(** Without an occurrence, nothing is replaced. *)
Lemma replace_absent (pat rep s : string) :
  includes pat s = false -> Js.replace pat rep s = s.
Proof.
  induction s as [|c s IH]; intros H; rewrite replace_eq;
    cbn [includes] in H; apply orb_false_iff in H as [Hp Hi]; rewrite Hp.
  - reflexivity.
  - now rewrite IH.
Qed.

(** The first doubled slash of a text that has one. *)
Lemma first_double_slash (s : string) :
  includes "//" s = true ->
  exists a rest, s = a ++ "//" ++ rest /\ includes "//" (a ++ "/") = false.
Proof.
  induction s as [|c s IH]; intros H; cbn [includes] in H.
  - discriminate.
  - destruct (prefix "//" (String c s)) eqn:Hp.
    + destruct (prefix_exists _ _ Hp) as [rest Hrest].
      exists EmptyString, rest. split; [exact Hrest | reflexivity].
    + simpl in H. destruct (IH H) as (a & rest & -> & Ha).
      exists (String c a), rest. split; [reflexivity|].
      change (includes "//" (String c a ++ "/"))
        with (prefix "//" (String c (a ++ "/")) || includes "//" (a ++ "/")).
      rewrite Ha, orb_false_r.
      cbn [prefix] in Hp |- *. destruct (ascii_dec "/" c); [|reflexivity].
      destruct a as [|d a]; cbn [prefix append] in Hp |- *.
      * destruct (ascii_dec "/" "/") as [_|ne]; [|now elim ne].
        now destruct rest.
      * destruct (ascii_dec "/" d); [|reflexivity].
        now destruct (a ++ String "/" (String "/" rest)).
Qed.

Lemma lacks_no_double_slash (s : string) : lacks "/" s = true -> includes "//" s = false.
Proof.
  induction s as [|c s IH]; [reflexivity|].
  intros H. simpl in H. apply andb_true_iff in H as [Hc Hs].
  cbn [includes]. rewrite (IH Hs), orb_false_r.
  cbn [prefix]. destruct (ascii_dec "/" c) as [<-|]; [discriminate | reflexivity].
Qed.

Lemma slash_then_lacks (s : string) :
  lacks "/" s = true -> includes "//" (String "/" s) = false.
Proof.
  intros H. cbn [includes]. rewrite (lacks_no_double_slash s H), orb_false_r.
  cbn [prefix]. destruct (ascii_dec "/" "/") as [_|ne]; [|now elim ne].
  destruct s as [|c s]; [reflexivity|].
  simpl in H. apply andb_true_iff in H as [Hc _].
  cbn [prefix]. destruct (ascii_dec "/" c) as [<-|]; [discriminate | reflexivity].
Qed.

(** A tail that brings no doubled slash, alone or after a slash, is left
    alone by the cleanup. *)
Lemma replace_append_tail (p a : string) :
  includes "//" (String "/" a) = false ->
  Js.replace "//" "/" (p ++ a) = Js.replace "//" "/" p ++ a.
Proof.
  intros H. cbn [includes] in H. apply orb_false_iff in H as [Hstart Ha].
  induction p as [|c p IH].
  - simpl. rewrite replace_absent by exact Ha. reflexivity.
  - assert (Hp : prefix "//" (String c (p ++ a)) = prefix "//" (String c p)).
    { cbn [prefix]. destruct (ascii_dec "/" c) as [<-|]; [|reflexivity].
      destruct p as [|d p]; cbn [append]; [exact Hstart|].
      cbn [prefix]. destruct (ascii_dec "/" d); [|reflexivity].
      now destruct (p ++ a), p. }
    destruct (prefix "//" (String c p)) eqn:E.
    + destruct (prefix_exists _ _ E) as [rest Hrest]. rewrite Hrest.
      change (("//" ++ rest) ++ a) with ("//" ++ (rest ++ a)).
      now rewrite !replace_here.
    + change (String c p ++ a) with (String c (p ++ a)).
      rewrite (replace_eq _ _ (String c (p ++ a))), (replace_eq _ _ (String c p)).
      rewrite Hp, E. simpl. now rewrite IH.
Qed.

Lemma append_cancel_l (p a b : string) : p ++ a = p ++ b -> a = b.
Proof.
  induction p as [|c p IH]; simpl; [trivial|].
  intros H. injection H as H. now apply IH.
Qed.

End ReplaceMoreFacts.

(** ** The decimal numeral of an identifier *)
Section DecimalFacts.

Lemma string_of_uint_lacks_slash (d : Decimal.uint) :
  lacks "/" (NilEmpty.string_of_uint d) = true.
Proof. induction d; simpl; auto. Qed.

Lemma Number_toString_lacks_slash (n : Z) : lacks "/" (Js.Number_toString n) = true.
Proof.
  unfold Js.Number_toString, NilZero.string_of_int, NilZero.string_of_uint.
  destruct (Z.to_int n) as [d|d]; destruct d; try reflexivity;
    simpl; apply string_of_uint_lacks_slash.
Qed.

Lemma Number_toString_nonempty (n : Z) : Js.Number_toString n <> EmptyString.
Proof.
  unfold Js.Number_toString, NilZero.string_of_int, NilZero.string_of_uint.
  destruct (Z.to_int n) as [d|d]; destruct d; discriminate.
Qed.

Lemma to_int_proper (n : Z) :
  Z.to_int n <> Decimal.Pos Decimal.Nil /\ Z.to_int n <> Decimal.Neg Decimal.Nil.
Proof.
  destruct n as [|p|p]; simpl; split; try discriminate;
    intros H; injection H as H; exact (DecimalPos.Unsigned.to_uint_nonnil p H).
Qed.

(** The numeral reads back as the number. *)
Lemma read_Number_toString (n : Z) : read_decimal (Js.Number_toString n) = Some n.
Proof.
  unfold read_decimal, Js.Number_toString.
  destruct (to_int_proper n) as [Hp Hn].
  rewrite (NilZero.isi _ Hp Hn). simpl. now rewrite DecimalZ.of_to.
Qed.

Lemma Number_toString_inj (n m : Z) :
  Js.Number_toString n = Js.Number_toString m -> n = m.
Proof.
  intros H.
  assert (E : read_decimal (Js.Number_toString n) = read_decimal (Js.Number_toString m))
    by now rewrite H.
  rewrite !read_Number_toString in E. now injection E.
Qed.

Lemma append_cancel_r (a b c : string) : a ++ c = b ++ c -> a = b.
Proof.
  revert b. induction a as [|x a IH]; intros [|y b] H; simpl in H.
  - reflexivity.
  - apply (f_equal String.length) in H. simpl in H. rewrite length_append in H. lia.
  - apply (f_equal String.length) in H. simpl in H. rewrite length_append in H. lia.
  - injection H as -> H. now rewrite (IH b H).
Qed.

(** A text without a slash between two others brings no doubled slash. *)
Lemma includes_then_lacks (a b : string) :
  lacks "/" b = true -> includes "//" (a ++ b) = includes "//" a.
Proof.
  intros Hb. induction a as [|c a IH].
  - simpl. now rewrite lacks_no_double_slash.
  - change (String c a ++ b) with (String c (a ++ b)).
    cbn [includes]. rewrite IH. f_equal.
    cbn [prefix]. destruct (ascii_dec "/" c); [|reflexivity].
    destruct a as [|d a]; cbn [append prefix].
    + destruct b as [|x b]; [reflexivity|].
      simpl in Hb. apply andb_true_iff in Hb as [Hx _].
      cbn [prefix]. destruct (ascii_dec "/" x) as [<-|]; [discriminate | reflexivity].
    + destruct (ascii_dec "/" d); [|reflexivity]. now destruct (a ++ b), a.
Qed.

Lemma includes_around (a b c : string) :
  lacks "/" b = true -> b <> EmptyString ->
  includes "//" (a ++ b ++ c) = includes "//" a || includes "//" c.
Proof.
  intros Hb Hne.
  assert (Hbc : includes "//" (b ++ c) = includes "//" c).
  { clear Hne. induction b as [|x b IH]; [reflexivity|].
    simpl in Hb. apply andb_true_iff in Hb as [Hx Hb].
    change (String x b ++ c) with (String x (b ++ c)).
    cbn [includes]. rewrite (IH Hb).
    cbn [prefix]. destruct (ascii_dec "/" x) as [<-|]; [discriminate | reflexivity]. }
  induction a as [|y a IH].
  - exact Hbc.
  - change (String y a ++ b ++ c) with (String y (a ++ b ++ c)).
    cbn [includes]. rewrite IH, orb_assoc. f_equal. f_equal.
    cbn [prefix]. destruct (ascii_dec "/" y); [|reflexivity].
    destruct a as [|d a]; cbn [append prefix].
    + destruct b as [|x b]; [now elim Hne|].
      simpl in Hb. apply andb_true_iff in Hb as [Hx _].
      change (String x b ++ c) with (String x (b ++ c)).
      cbn [prefix]. destruct (ascii_dec "/" x) as [<-|]; [discriminate | reflexivity].
    + destruct (ascii_dec "/" d); [|reflexivity]. now destruct (a ++ b ++ c), a.
Qed.

(** The endpoint paths of the five operations with a path of their own
    bring no doubled slash, not even after a slash. *)
Lemma fixed_endpoint_clean (op : Operation) :
  fixed_endpoint op = true -> includes "//" (String "/" (api_of op)) = false.
Proof.
  destruct op; cbn [api_of fixed_endpoint]; intros H; try discriminate;
    try reflexivity.
  - apply (includes_then_lacks "/orders/"), Number_toString_lacks_slash.
  - apply (includes_then_lacks "/orders/"), Number_toString_lacks_slash.
  - change (String "/" ("shipping/zones/" ++ Js.Number_toString zoneId ++ "/methods"))
      with ("/shipping/zones/" ++ Js.Number_toString zoneId ++ "/methods").
    rewrite includes_around;
      [reflexivity | apply Number_toString_lacks_slash | apply Number_toString_nonempty].
Qed.

End DecimalFacts.

(** The address of an operation with a path of its own, cut at the path. *)
Lemma fixed_path_address (cfg : Config) (op : Operation) :
  fixed_endpoint op = true ->
  endpoint cfg (api_of op)
  = Js.replace "//" "/" (Js.opt_toString (WOOCOMMERCE_URL cfg) ++ "/wp-json/wc/v3/")
    ++ api_of op.
Proof.
  intros H. unfold endpoint.
  rewrite <- append_assoc.
  apply replace_append_tail, fixed_endpoint_clean, H.
Qed.

(** X10. The cleanup of line 56 in full.  When the text
    [base/wp-json/wc/v3/api] holds no doubled slash, it is the address as
    it stands.  When it holds one, the first doubled slash, wherever it
    stands, becomes a single slash, and nothing else changes. *)
Theorem cleanup_removes_the_first_doubled_slash (cfg : Config) (api : string) :
  let whole := Js.opt_toString (WOOCOMMERCE_URL cfg) ++ "/wp-json/wc/v3/" ++ api in
  (includes "//" whole = false -> endpoint cfg api = whole) /\
  (includes "//" whole = true ->
   exists a rest,
     whole = a ++ "//" ++ rest /\
     includes "//" (a ++ "/") = false /\
     endpoint cfg api = a ++ "/" ++ rest).
Proof.
  intros whole. split; intros H.
  - now apply replace_absent.
  - destruct (first_double_slash whole H) as (a & rest & Hwhole & Ha).
    exists a, rest. split; [exact Hwhole|]. split; [exact Ha|].
    unfold endpoint. fold whole. rewrite Hwhole.
    now apply replace_first_double_slash.
Qed.

Lemma cleanup_removes_the_first_doubled_slash_witness :
  endpoint (mkConfig (Some "shop.example") None None) "orders"
  = "shop.example/wp-json/wc/v3/orders" /\
  exists a rest,
    "https://shop.example/wp-json/wc/v3/orders" = a ++ "//" ++ rest /\
    endpoint (mkConfig (Some "https://shop.example") None None) "orders"
    = a ++ "/" ++ rest.
Proof.
  split.
  - apply (cleanup_removes_the_first_doubled_slash
             (mkConfig (Some "shop.example") None None) "orders").
    reflexivity.
  - destruct (cleanup_removes_the_first_doubled_slash
                (mkConfig (Some "https://shop.example") None None) "orders")
      as [_ H].
    destruct (H eq_refl) as (a & rest & Hwhole & _ & Hendpoint).
    now exists a, rest.
Defined.

(** X11. With a base URL that has a scheme, [scheme//rest], the slash that
    goes is one of the scheme separator, whether or not the base ends in a
    slash: the address is [scheme/rest/wp-json/wc/v3/api].  The rest of the
    base and the endpoint path are left as written, a doubled slash in
    them included. *)
Theorem scheme_separator_loses_a_slash
  (scheme rest api : string) (key secret : option string) :
  includes "//" (scheme ++ "/") = false ->
  endpoint (mkConfig (Some (scheme ++ "//" ++ rest)) key secret) api
  = scheme ++ "/" ++ rest ++ "/wp-json/wc/v3/" ++ api.
Proof.
  intros H.
  assert (E : (scheme ++ "//" ++ rest) ++ "/wp-json/wc/v3/" ++ api
              = scheme ++ "//" ++ (rest ++ "/wp-json/wc/v3/" ++ api)).
  { rewrite append_assoc. f_equal. }
  unfold endpoint. cbn [Js.opt_toString WOOCOMMERCE_URL]. rewrite E.
  apply (replace_first_double_slash scheme _ H).
Qed.

Lemma scheme_separator_loses_a_slash_witness :
  endpoint (mkConfig (Some "https://shop.example") None None) "products//reviews"
  = "https:/shop.example/wp-json/wc/v3/products//reviews".
Proof.
  apply (scheme_separator_loses_a_slash "https:" "shop.example" "products//reviews").
  reflexivity.
Defined.



(** X13. An order or zone identifier is written into the address as its
    decimal numeral, which reads back as the identifier; so two different
    order ids never give [updateOrderInfo] or [setOrderPaid] the same
    address, nor two different zone ids [getShippingOptions]. *)
Theorem different_ids_have_different_addresses (cfg : Config) (n m : Z) :
  read_decimal (Js.Number_toString n) = Some n /\
  (forall o o',
      endpoint cfg (api_of (UpdateOrderInfo n o))
      = endpoint cfg (api_of (UpdateOrderInfo m o')) -> n = m) /\
  (endpoint cfg (api_of (SetOrderPaid n)) = endpoint cfg (api_of (SetOrderPaid m)) ->
   n = m) /\
  (endpoint cfg (api_of (GetShippingOptions n))
   = endpoint cfg (api_of (GetShippingOptions m)) -> n = m).
Proof.
  split; [apply read_Number_toString|].
  assert (Horders : endpoint cfg (api_of (SetOrderPaid n))
                    = endpoint cfg (api_of (SetOrderPaid m)) -> n = m).
  { intros H.
    rewrite (fixed_path_address cfg (SetOrderPaid n)) in H by reflexivity.
    rewrite (fixed_path_address cfg (SetOrderPaid m)) in H by reflexivity.
    apply append_cancel_l in H. cbn [api_of] in H.
    apply (append_cancel_l "orders/") in H.
    now apply Number_toString_inj. }
  split; [|split].
  - intros o o'. exact Horders.
  - exact Horders.
  - intros H.
    rewrite (fixed_path_address cfg (GetShippingOptions n)) in H by reflexivity.
    rewrite (fixed_path_address cfg (GetShippingOptions m)) in H by reflexivity.
    apply append_cancel_l in H. cbn [api_of] in H.
    apply (append_cancel_l "shipping/zones/") in H.
    apply append_cancel_r in H.
    now apply Number_toString_inj.
Qed.

Lemma different_ids_have_different_addresses_witness : (42 = 40 + 2)%Z.
Proof.
  destruct (different_ids_have_different_addresses Sample.cfg 42 (40 + 2))
    as (_ & _ & Hpaid & _).
  apply Hpaid. reflexivity.
Defined.

(** X14. With [WOOCOMMERCE_URL] unset, the five operations with a path of
    their own still send their request, to the relative address
    [undefined/wp-json/wc/v3/] followed by the path. *)
Theorem missing_base_url_gives_a_relative_address
  (key secret : option string) (op : Operation) (w : World) :
  let cfg := mkConfig None key secret in
  fixed_endpoint op = true ->
  exists req : Request,
    sent (snd (woo cfg op w)) = (sent w ++ [req])%list /\
    url req = "undefined/wp-json/wc/v3/" ++ api_of op
              ++ "?" ++ URLSearchParams.toString (signed cfg None).
Proof.
  intros cfg Hfixed.
  destruct (woo_shape cfg op) as (body & Hrun & _).
  exists (request_to cfg (method_of op) (api_of op) (query_of op) body).
  rewrite Hrun. split; [reflexivity|].
  assert (Hq : query_of op = None) by (destruct op; [discriminate | reflexivity ..]).
  rewrite Hq. unfold request_to. cbn [url].
  rewrite (fixed_path_address cfg op Hfixed).
  now rewrite append_assoc.
Qed.

Lemma missing_base_url_gives_a_relative_address_witness :
  exists req : Request,
    sent (snd (woo (mkConfig None (Some "ck_live") (Some "cs_live")) (SetOrderPaid 42)
                 (Sample.answering (mkResponse 200 None)))) = [req] /\
    url req
    = "undefined/wp-json/wc/v3/orders/42?consumer_secret=cs_live&consumer_key=ck_live".
Proof.
  destruct (missing_base_url_gives_a_relative_address (Some "ck_live") (Some "cs_live")
              (SetOrderPaid 42) (Sample.answering (mkResponse 200 None)) eq_refl)
    as (req & Hsent & Hurl).
  exists req. split; [exact Hsent | exact Hurl].
Defined.

(** ** More on the filter of [getShippingOptions] *)
Section ShippingMoreFacts.

Lemma is_enabled_is_object (x : JSValue) : is_enabled x = true -> is_object x = true.
Proof. destruct x; simpl; try discriminate; reflexivity. Qed.

Lemma filter_enabled_objects (items : list JSValue) :
  List.filter is_enabled (List.filter is_object items) = List.filter is_enabled items.
Proof.
  induction items as [|x items IH]; simpl; [reflexivity|].
  destruct (is_object x) eqn:Ho; simpl.
  - now rewrite IH.
  - destruct (is_enabled x) eqn:He; [|exact IH].
    apply is_enabled_is_object in He. congruence.
Qed.

Lemma filter_objects_not_nullish (items : list JSValue) :
  existsb nullish (List.filter is_object items) = false.
Proof.
  induction items as [|x items IH]; simpl; [reflexivity|].
  destruct x; simpl; exact IH.
Qed.

Lemma same_method_projection (x y : JSValue) :
  same_method x y -> projection x = projection y.
Proof. intros (_ & Hid & Htitle). unfold projection. now rewrite Hid, Htitle. Qed.

Lemma same_methods_options (ms1 ms2 : list JSValue) :
  Forall2 same_method ms1 ms2 ->
  List.map projection (List.filter is_enabled ms1)
  = List.map projection (List.filter is_enabled ms2).
Proof.
  induction 1 as [|x y ms1 ms2 Hxy _ IH]; simpl; [reflexivity|].
  pose proof (same_method_projection x y Hxy) as Hp.
  destruct Hxy as (He & _). rewrite <- He.
  destruct (is_enabled x); simpl; [|exact IH].
  now rewrite Hp, IH.
Qed.

End ShippingMoreFacts.

(** X15. In the array that [getShippingOptions] filters, an entry that is
    not an object (a number, a string, a boolean, a nested array) is
    skipped without an error: the result is the one the array without
    these entries gives.  (Only a [null] entry makes the call fail.) *)
Theorem entries_that_are_not_objects_are_skipped (methods : list JSValue) :
  existsb nullish methods = false ->
  select_shipping_options (JArr methods)
  = select_shipping_options (JArr (List.filter is_object methods)) /\
  exists options, select_shipping_options (JArr methods) = Resolved (JArr options).
Proof.
  intros H. rewrite !select_shipping_options_eq, H.
  rewrite filter_objects_not_nullish, filter_enabled_objects.
  split; [reflexivity | now eexists].
Qed.

Lemma entries_that_are_not_objects_are_skipped_witness :
  select_shipping_options
    (JArr [JNum 3; Sample.flat_rate; JStr "flat"; JArr [Sample.flat_rate]; JBool true])
  = select_shipping_options (JArr [Sample.flat_rate]).
Proof.
  apply (entries_that_are_not_objects_are_skipped
           [JNum 3; Sample.flat_rate; JStr "flat"; JArr [Sample.flat_rate]; JBool true]).
  reflexivity.
Defined.

(** X16. [getShippingOptions] reads three properties of a remote method:
    [enabled], [method_id] and [method_title].  Two arrays whose entries
    agree on these give the same options, whatever else the entries hold
    (a cost, settings); and every option returned has the price list
    [{label: "Free", amount: 0}]. *)
Theorem remote_prices_are_ignored (ms1 ms2 : list JSValue) :
  existsb nullish ms1 = false ->
  existsb nullish ms2 = false ->
  Forall2 same_method ms1 ms2 ->
  select_shipping_options (JArr ms1) = select_shipping_options (JArr ms2) /\
  exists options,
    select_shipping_options (JArr ms1) = Resolved (JArr options) /\
    Forall (fun o => field o "prices"
                     = JArr [JObj [("label", JStr "Free"); ("amount", JNum 0)]])
           options.
Proof.
  intros H1 H2 Hsame. rewrite !select_shipping_options_eq, H1, H2.
  rewrite (same_methods_options ms1 ms2 Hsame).
  split; [reflexivity|]. eexists. split; [reflexivity|].
  apply Forall_forall. intros o Hin.
  apply in_map_iff in Hin as (x & <- & _). reflexivity.
Qed.

Lemma remote_prices_are_ignored_witness :
  select_shipping_options
    (JArr [JObj [("method_id", JStr "flat"); ("method_title", JStr "Flat Rate");
                 ("enabled", JBool true);
                 ("settings", JObj [("cost", JObj [("value", JStr "4.90")])])]])
  = select_shipping_options (JArr [Sample.flat_rate]).
Proof.
  apply (remote_prices_are_ignored
           [JObj [("method_id", JStr "flat"); ("method_title", JStr "Flat Rate");
                  ("enabled", JBool true);
                  ("settings", JObj [("cost", JObj [("value", JStr "4.90")])])]]
           [Sample.flat_rate] eq_refl eq_refl).
  repeat constructor.
Defined.

(** X17. A field the order information lacks is left out of the JSON body,
    not sent as [null]: with no shipping address, the [shipping] object of
    [updateOrderInfo] and of [createUser] is serialised with the two name
    properties only, and the [billing] object with the names, the email
    and the phone (each of them left out in turn when it is missing). *)
Theorem missing_address_is_left_out_of_the_body
  (cfg : Config) (orderId : Z) (o : OrderInfo) (w : World) :
  shipping_address o = None ->
  let n := Js.js_of_opt (name o) in
  let shipping := JObj [("first_name", n); ("last_name", n)] in
  let billing := JObj [("first_name", n); ("last_name", n);
                       ("email", Js.js_of_opt (email o));
                       ("phone", Js.js_of_opt (phone_number o))] in
  exists req req' : Request,
    sent (snd (updateOrderInfo cfg orderId o w)) = (sent w ++ [req])%list /\
    body req = json_text (JObj [("shipping", shipping); ("billing", billing)]) /\
    sent (snd (createUser cfg o w)) = (sent w ++ [req'])%list /\
    body req' = json_text (JObj [("email", Js.js_of_opt (email o));
                                 ("first_name", n); ("last_name", n);
                                 ("username", n);
                                 ("shipping", shipping); ("billing", billing)]).
Proof.
  intros Haddr n shipping billing.
  eexists. eexists.
  split; [unfold updateOrderInfo; rewrite updateOrder_run; reflexivity|].
  split; [|split; [unfold createUser; rewrite post_json_run; reflexivity|]].
  - unfold request_to, address_field. cbn [body Js.truthy]. rewrite Haddr.
    subst n shipping billing.
    destruct (name o), (email o), (phone_number o); reflexivity.
  - unfold request_to, address_field. cbn [body Js.truthy]. rewrite Haddr.
    subst n shipping billing.
    destruct (name o), (email o), (phone_number o); reflexivity.
Qed.

Lemma missing_address_is_left_out_of_the_body_witness :
  exists req : Request,
    sent (snd (updateOrderInfo Sample.cfg 7
                 (mkOrderInfo (Some "Alice") None (Some "alice@shop.example") None)
                 (Sample.answering (mkResponse 200 None)))) = [req] /\
    body req
    = json_text (JObj [("shipping", JObj [("first_name", JStr "Alice");
                                          ("last_name", JStr "Alice")]);
                       ("billing", JObj [("first_name", JStr "Alice");
                                         ("last_name", JStr "Alice");
                                         ("email", JStr "alice@shop.example")])]).
Proof.
  destruct (missing_address_is_left_out_of_the_body Sample.cfg 7
              (mkOrderInfo (Some "Alice") None (Some "alice@shop.example") None)
              (Sample.answering (mkResponse 200 None)) eq_refl)
    as (req & _ & Hsent & Hbody & _).
  exists req. split; [exact Hsent|]. rewrite Hbody. reflexivity.
Defined.

(** ** What [JSON.stringify] gives back *)
Section StringifyFacts.

(** Only [undefined] has no JSON text, and it is falsy. *)
Lemma stringify_truthy (v : JSValue) :
  Js.truthy v = true -> exists text, JSON.stringify v = Some text.
Proof.
  destruct v as [| |[]| | | |]; simpl; intros H; try discriminate; now eexists.
Qed.

End StringifyFacts.

(** X18. The call serialises its body only when the body is truthy (line
    62).  A truthy body always goes out as its JSON text; a falsy one
    ([undefined], [null], [false], 0, the empty string) is handed to
    [fetch] as it is, unserialised.  This holds for [updateOrder], whose
    patch is the caller's, as for every call. *)
Theorem only_a_truthy_body_is_serialised
  (cfg : Config) (orderId : Z) (update : JSValue) (w : World) :
  exists req : Request,
    updateOrder cfg orderId update w = (remote w req, after w req) /\
    method req = "PUT" /\
    (Js.truthy update = true ->
     exists text, JSON.stringify update = Some text /\ body req = JStr text) /\
    (Js.truthy update = false -> body req = update).
Proof.
  exists (request_to cfg "PUT" ("orders/" ++ Js.Number_toString orderId) None update).
  split; [apply updateOrder_run|]. split; [reflexivity|].
  unfold request_to. cbn [body]. split; intros H; rewrite H.
  - destruct (stringify_truthy update H) as [text Htext].
    exists text. split; [exact Htext|]. unfold json_text. now rewrite Htext.
  - reflexivity.
Qed.

Lemma only_a_truthy_body_is_serialised_witness :
  exists req : Request,
    updateOrder Sample.cfg 7 (JObj [("status", JStr "completed")])
      (Sample.answering (mkResponse 200 None))
    = (Resolved (mkResponse 200 None),
       after (Sample.answering (mkResponse 200 None)) req) /\
    (exists text, body req = JStr text) /\
    exists req' : Request,
      updateOrder Sample.cfg 7 JNull (Sample.answering (mkResponse 200 None))
      = (Resolved (mkResponse 200 None),
         after (Sample.answering (mkResponse 200 None)) req') /\
      body req' = JNull.
Proof.
  destruct (only_a_truthy_body_is_serialised Sample.cfg 7
              (JObj [("status", JStr "completed")])
              (Sample.answering (mkResponse 200 None)))
    as (req & Hrun & _ & Htruthy & _).
  exists req. split; [exact Hrun|].
  destruct (Htruthy eq_refl) as (text & _ & Hbody).
  split; [now exists text|].
  destruct (only_a_truthy_body_is_serialised Sample.cfg 7 JNull
              (Sample.answering (mkResponse 200 None)))
    as (req' & Hrun' & _ & _ & Hfalsy).
  exists req'. split; [exact Hrun' | exact (Hfalsy eq_refl)].
Defined.
